(** * pyedimax: the SmartPlug client of [pyedimax/smartplug.py]

    A shallow embedding of the [SmartPlug] class (constructor, the two XML
    command builders, the two POST helpers and the four property accessors)
    together with the parts of [xml.dom.minidom], [requests] and the Python
    built-ins that the class calls, followed by the properties of the client
    contract.

    Python [str] values are modelled as [string], a character standing
    for the code point of the same number; every statement below about text
    is a statement about text of code points below 256. *)

From Stdlib Require Import ZArith Lia List Bool Ascii String.
From stdpp Require Import base option list gmap strings.
Import ListNotations.

Local Open Scope list_scope.
Local Open Scope string_scope.

(** ** Python values, exceptions and the effect monad *)

Module Py.

(** The built-in values that reach the client from a caller. *)
Inductive PyVal :=
| PyNone
| PyBool (b : bool)
| PyInt (z : Z)
| PyStr (s : string).

(** Exception classes raised by the client or by the library calls it makes. *)
Inductive ExcClass :=
| Exception
| TypeError
| ValueError
| KeyError
| IndexError
| AttributeError
| RecursionError
| HierarchyRequestErr
| ExpatError
| ConnectionError.

(** An exception instance: its class and its [args] tuple. *)
Record PyExc := mkExc { exc_class : ExcClass; exc_args : list PyVal }.

Definition ExcClass_eqb (a b : ExcClass) : bool :=
  match a, b with
  | Exception, Exception | TypeError, TypeError | ValueError, ValueError
  | KeyError, KeyError | IndexError, IndexError
  | AttributeError, AttributeError | RecursionError, RecursionError
  | HierarchyRequestErr, HierarchyRequestErr | ExpatError, ExpatError
  | ConnectionError, ConnectionError => true
  | _, _ => false
  end.

(** [value == s] for a string literal [s]: a built-in value that is not a
    [str] never compares equal to a [str]. *)
Definition py_eq_str (value : PyVal) (s : string) : bool :=
  match value with
  | PyStr t => String.eqb t s
  | _ => false
  end.

(** [e.__str__()] for an exception with no argument or one [str] argument,
    the only shapes the client prints; other argument tuples, which are
    never printed, are rendered as the empty string. *)
Definition exc_str (e : PyExc) : string :=
  match exc_args e with
  | [PyStr s] => s
  | _ => EmptyString
  end.

(** The result of running a statement: an exception or a value. *)
Inductive Outcome (A : Type) :=
| Raise (e : PyExc)
| Return (a : A).
Arguments Raise {A} e.
Arguments Return {A} a.

(** Computations over a state [S]; the state survives an exception. *)
Definition M (S A : Type) : Type := S -> Outcome A * S.

Definition ret {S A} (a : A) : M S A := fun st => (Return a, st).

Definition raise {S A} (e : PyExc) : M S A := fun st => (Raise e, st).

Definition bind {S A B} (c : M S A) (k : A -> M S B) : M S B :=
  fun st =>
    match c st with
    | (Return a, st') => k a st'
    | (Raise e, st') => (Raise e, st')
    end.

(** [try: body / except Exception as e: handler e]. *)
Definition try_except {S A} (body : M S A) (handler : PyExc -> M S A) : M S A :=
  fun st =>
    match body st with
    | (Return a, st') => (Return a, st')
    | (Raise e, st') => handler e st'
    end.

(** A pure library call that may raise. *)
Definition lift {S A} (o : Outcome A) : M S A := fun st => (o, st).

Definition gets {S A} (f : S -> A) : M S A := fun st => (Return (f st), st).

Definition modify {S} (f : S -> S) : M S unit := fun st => (Return tt, f st).

End Py.

Export Py.

Declare Scope py_scope.
Delimit Scope py_scope with py.
Notation "x <- c ;; k" := (bind c (fun x => k))
  (at level 100, c at next level, right associativity) : py_scope.
Notation "c ;;; k" := (bind c (fun _ => k))
  (at level 100, right associativity) : py_scope.

(** ** String built-ins *)

Module Str.

(** [s[lo:hi]] for non-negative literal bounds. *)
Definition slice (s : string) (lo hi : nat) : string :=
  String.substring lo (hi - lo) s.

Definition lower_ascii (c : ascii) : ascii :=
  let n := nat_of_ascii c in
  if ((65 <=? n)%nat && (n <=? 90)%nat)
     || ((192 <=? n)%nat && (n <=? 222)%nat && negb (Nat.eqb n 215))
  then ascii_of_nat (n + 32) else c.

(** [s.lower()]. *)
Fixpoint lower (s : string) : string :=
  match s with
  | EmptyString => EmptyString
  | String c s' => String (lower_ascii c) (lower s')
  end.

(** [s.replace(old, new)] for a one-character [old]. *)
Fixpoint replace (old : ascii) (new : string) (s : string) : string :=
  match s with
  | EmptyString => EmptyString
  | String c s' =>
      if Ascii.eqb c old then new ++ replace old new s'
      else String c (replace old new s')
  end.

(** [s.startswith(p)]. *)
Definition startswith (p s : string) : bool := String.prefix p s.

End Str.

(** ** [xml.dom.minidom]: building and serialising a document *)

Module Minidom.

(** The double-quote character, and strings that contain it. *)
Definition dquote : string := String (ascii_of_nat 34) EmptyString.

(** Nodes created through the DOM API are mutable objects that the builders
    keep mutating after linking them into the tree, so they live in a store
    and refer to each other by identifier (the index in the store). *)
Inductive Cell :=
| DocumentCell (childNodes : list nat)
| ElementCell (tagName : string) (attrs : list (string * string))
    (childNodes : list nat) (parentNode : option nat)
| TextCell (data : string) (parentNode : option nat).

Definition Store := list Cell.

Definition Dom := M Store.

Definition alloc (c : Cell) : Dom nat :=
  fun st => (Return (length st), (st ++ [c])%list).

(** Reading an attribute or calling a method named [attr] on a reference
    that may be [None]. *)
Definition not_none {S A} (attr : string) (r : option A) : M S A :=
  match r with
  | Some a => ret a
  | None =>
      raise (mkExc AttributeError
               [PyStr ("'NoneType' object has no attribute '" ++ attr ++ "'")])
  end.

(** An identifier outside the store denotes no object; no operation below
    produces one. *)
Definition load (node : nat) : Dom Cell :=
  fun st =>
    match st !! node with
    | Some c => (Return c, st)
    | None => (Raise (mkExc AttributeError []), st)
    end.

Definition store (node : nat) (c : Cell) : Dom unit :=
  modify (fun st => <[node := c]> st).

(** [getDOMImplementation().createDocument(None, qualifiedName, None)] for a
    [qualifiedName] without a namespace prefix: a document whose only child
    is a fresh, attribute-less root element. *)
Definition createDocument (qualifiedName : string) : Dom nat :=
  (doc <- alloc (DocumentCell []) ;;
   root <- alloc (ElementCell qualifiedName [] [] (Some doc)) ;;
   store doc (DocumentCell [root]) ;;;
   ret doc)%py.

Definition is_element (st : Store) (node : nat) : bool :=
  match st !! node with
  | Some (ElementCell _ _ _ _) => true
  | _ => false
  end.

(** [doc.documentElement]: the first element child of the document. *)
Definition documentElement (doc : nat) : Dom (option nat) :=
  (c <- load doc ;;
   match c with
   | DocumentCell childNodes =>
       gets (fun st => List.find (is_element st) childNodes)
   | _ => raise (mkExc AttributeError [])
   end)%py.

Definition createElement (tagName : string) : Dom nat :=
  alloc (ElementCell tagName [] [] None).

Definition createTextNode (data : string) : Dom nat :=
  alloc (TextCell data None).

(** Attribute dictionaries keep insertion order; assigning to an existing
    name replaces its value in place. *)
Fixpoint set_attr (name value : string) (attrs : list (string * string))
  : list (string * string) :=
  match attrs with
  | [] => [(name, value)]
  | (n, v) :: rest =>
      if String.eqb n name then (n, value) :: rest
      else (n, v) :: set_attr name value rest
  end.

(** [node.setAttribute(name, value)]. *)
Definition setAttribute (node : nat) (name value : string) : Dom unit :=
  (c <- load node ;;
   match c with
   | ElementCell tagName attrs childNodes parentNode =>
       store node (ElementCell tagName (set_attr name value attrs) childNodes parentNode)
   | _ => raise (mkExc AttributeError [])
   end)%py.

Fixpoint remove_first (x : nat) (l : list nat) : list nat :=
  match l with
  | [] => []
  | y :: l' => if Nat.eqb x y then l' else y :: remove_first x l'
  end.

Definition parent_of (c : Cell) : option nat :=
  match c with
  | DocumentCell _ => None
  | ElementCell _ _ _ p => p
  | TextCell _ p => p
  end.

Definition set_parent (p : option nat) (c : Cell) : Cell :=
  match c with
  | DocumentCell ch => DocumentCell ch
  | ElementCell t a ch _ => ElementCell t a ch p
  | TextCell d _ => TextCell d p
  end.

Definition children_of (c : Cell) : list nat :=
  match c with
  | DocumentCell ch => ch
  | ElementCell _ _ ch _ => ch
  | TextCell _ _ => []
  end.

Definition set_children (ch : list nat) (c : Cell) : Cell :=
  match c with
  | DocumentCell _ => DocumentCell ch
  | ElementCell t a _ p => ElementCell t a ch p
  | TextCell d p => TextCell d p
  end.

(** [parent.removeChild(node)]. *)
Definition removeChild (parent node : nat) : Dom unit :=
  (p <- load parent ;;
   n <- load node ;;
   store parent (set_children (remove_first node (children_of p)) p) ;;;
   store node (set_parent None n))%py.

(** [parent.appendChild(node)] on an element [parent]: a document cannot be
    a child and a text node cannot be a parent; a node that already has a
    parent is unlinked from it first.  (The messages of
    [HierarchyRequestErr] embed object addresses and are left out.) *)
Definition appendChild (parent node : nat) : Dom nat :=
  (p <- load parent ;;
   n <- load node ;;
   match p, n with
   | ElementCell _ _ _ _, DocumentCell _ => raise (mkExc HierarchyRequestErr [])
   | ElementCell _ _ _ _, _ =>
       match parent_of n with
       | Some old => removeChild old node
       | None => ret tt
       end ;;;
       p' <- load parent ;;
       n' <- load node ;;
       store parent (set_children (children_of p' ++ [node])%list p') ;;;
       store node (set_parent (Some parent) n') ;;;
       ret node
   | _, _ => raise (mkExc HierarchyRequestErr [])
   end)%py.

(** [_write_data]: escape markup characters, in the order of the source. *)
Definition _write_data (data : string) : string :=
  match data with
  | EmptyString => EmptyString
  | _ =>
      Str.replace ">"%char "&gt;"
        (Str.replace (ascii_of_nat 34) "&quot;"
           (Str.replace "<"%char "&lt;"
              (Str.replace "&"%char "&amp;" data)))
  end.

Definition write_attr (a : string * string) : string :=
  " " ++ fst a ++ "=" ++ dquote ++ _write_data (snd a) ++ dquote.

Fixpoint concat_map {A} (f : A -> Outcome string) (l : list A) : Outcome string :=
  match l with
  | [] => Return EmptyString
  | x :: l' =>
      match f x with
      | Raise e => Raise e
      | Return s =>
          match concat_map f l' with
          | Raise e => Raise e
          | Return t => Return (s ++ t)
          end
      end
  end.

(** [node.writexml] with empty indentation and newline strings, the call
    [toxml] makes, returning what is written.  Serialisation recurses through [childNodes]; [fuel]
    bounds the depth, and running out of it is Python's [RecursionError]. *)
Fixpoint writexml (fuel : nat) (st : Store) (node : nat) : Outcome string :=
  match fuel with
  | O => Raise (mkExc RecursionError [PyStr "maximum recursion depth exceeded"])
  | S fuel' =>
      match st !! node with
      | None => Raise (mkExc AttributeError [])
      | Some (TextCell data _) => Return (_write_data data)
      | Some (ElementCell tagName attrs childNodes _) =>
          let head := "<" ++ tagName ++ String.concat EmptyString (map write_attr attrs) in
          match childNodes with
          | [] => Return (head ++ "/>")
          | _ =>
              match concat_map (writexml fuel' st) childNodes with
              | Raise e => Raise e
              | Return body => Return (head ++ ">" ++ body ++ "</" ++ tagName ++ ">")
              end
          end
      | Some (DocumentCell childNodes) =>
          match concat_map (writexml fuel' st) childNodes with
          | Raise e => Raise e
          | Return body =>
              Return ("<?xml version=" ++ dquote ++ "1.0" ++ dquote ++ " ?>" ++ body)
          end
      end
  end.

(** [doc.toxml()].  A tree with [n] nodes has depth at most [n]. *)
Definition toxml (doc : nat) : Dom string :=
  fun st => (writexml (S (length st)) st doc, st).

End Minidom.

(** ** [xml.dom.minidom]: parsed documents and the queries made on them *)

Module Dom.

(** A parsed document is only read, never mutated, so it is a plain tree. *)
#[warnings="-register-all"] Inductive Node :=
| Element (tagName : string) (attributes : list (string * string))
    (childNodes : list Node)
| Text (data : string).

Record Document := mkDocument { doc_childNodes : list Node }.

(** [node.firstChild]. *)
Definition firstChild (n : Node) : option Node :=
  match n with
  | Element _ _ childNodes => head childNodes
  | Text _ => None
  end.

(** [node.nodeValue]: the data of a text node, [None] for an element. *)
Definition nodeValue (n : Node) : option string :=
  match n with
  | Element _ _ _ => None
  | Text data => Some data
  end.

Definition matches (name : string) (n : Node) : bool :=
  match n with
  | Element tagName _ _ => String.eqb name "*" || String.eqb tagName name
  | Text _ => false
  end.

(** [_get_elements_by_tagName_helper]: the matching elements below a node,
    in document order. *)
Fixpoint elements_below (name : string) (n : Node) : list Node :=
  match n with
  | Element _ _ childNodes =>
      flat_map
        (fun c => ((if matches name c then [c] else []) ++ elements_below name c)%list)
        childNodes
  | Text _ => []
  end.

(** [element.getElementsByTagName(name)]. *)
Definition getElementsByTagName (n : Node) (name : string) : list Node :=
  elements_below name n.

(** [document.getElementsByTagName(name)]: the root element takes part. *)
Definition doc_getElementsByTagName (d : Document) (name : string) : list Node :=
  flat_map
    (fun c => ((if matches name c then [c] else []) ++ elements_below name c)%list)
    (doc_childNodes d).

(** [nodes[0]]. *)
Definition item0 {S} (nodes : list Node) : M S Node :=
  match nodes with
  | n :: _ => ret n
  | [] => raise (mkExc IndexError [PyStr "list index out of range"])
  end.

End Dom.

(** ** A parser for the XML of device responses

    [parseString] of the fragment of XML that device responses use: an
    optional XML declaration of version 1.0, one root element, elements
    with attributes, names of ASCII letters, digits, full stops, hyphens
    and underscores, character data, and the five predefined entity
    references.  As the real parser does, it refuses characters that XML
    excludes, reads every line end as a line feed, refuses the end of a
    CDATA section in character data, and reads white space in an attribute
    value as a space.  Whenever it returns a document, that is the document
    of the real parser.  Text that is not well-formed within this fragment,
    and text that uses other XML constructs (comments, CDATA sections,
    processing instructions, character references, a document type, name
    spaces, other names), is reported as [ExpatError]; the real parser
    accepts some of the latter.  The client below is therefore parametrised
    by its parser, and this one is used where a property is about concrete
    response text. *)

Module Expat.
Import Dom.

Definition is_ws (c : ascii) : bool :=
  let n := nat_of_ascii c in
  Nat.eqb n 32 || Nat.eqb n 9 || Nat.eqb n 10 || Nat.eqb n 13.

(** The characters that XML admits: tab, line feed, carriage return, and
    everything from the space on. *)
Definition is_char (c : ascii) : bool :=
  let n := nat_of_ascii c in
  (32 <=? n)%nat || Nat.eqb n 9 || Nat.eqb n 10 || Nat.eqb n 13.

(** Line ends: a carriage return, with the line feed after it if there is
    one, is read as a line feed. *)
Fixpoint newlines (l : list ascii) : list ascii :=
  match l with
  | [] => []
  | c :: l' =>
      if Nat.eqb (nat_of_ascii c) 13 then
        ascii_of_nat 10
        :: match l' with
           | d :: l'' => if Nat.eqb (nat_of_ascii d) 10 then newlines l'' else newlines l'
           | [] => []
           end
      else c :: newlines l'
  end.

(** Whether the end of a CDATA section occurs. *)
Fixpoint cdata_end (l : list ascii) : bool :=
  match l with
  | [] => false
  | c :: l' =>
      match c, l' with
      | "]"%char, "]"%char :: ">"%char :: _ => true
      | _, _ => cdata_end l'
      end
  end.

Definition is_name_start (c : ascii) : bool :=
  let n := nat_of_ascii c in
  ((65 <=? n)%nat && (n <=? 90)%nat) || ((97 <=? n)%nat && (n <=? 122)%nat)
  || Nat.eqb n 95.

Definition is_name_char (c : ascii) : bool :=
  let n := nat_of_ascii c in
  is_name_start c || ((48 <=? n)%nat && (n <=? 57)%nat) || Nat.eqb n 45 || Nat.eqb n 46.

Fixpoint span (p : ascii -> bool) (l : list ascii) : list ascii * list ascii :=
  match l with
  | c :: l' => if p c then let '(a, b) := span p l' in (c :: a, b) else ([], l)
  | [] => ([], [])
  end.

Definition skip_ws (l : list ascii) : list ascii := snd (span is_ws l).

Definition take_name (l : list ascii) : option (string * list ascii) :=
  match l with
  | c :: _ =>
      if is_name_start c then
        let '(a, b) := span is_name_char l in Some (string_of_list_ascii a, b)
      else None
  | [] => None
  end.

Definition entity (name : string) : option ascii :=
  if String.eqb name "lt" then Some "<"%char
  else if String.eqb name "gt" then Some ">"%char
  else if String.eqb name "amp" then Some "&"%char
  else if String.eqb name "quot" then Some (ascii_of_nat 34)
  else if String.eqb name "apos" then Some "'"%char
  else None.

(** Replace entity references; [pending] holds the reversed name of a
    reference that has been opened by an ampersand. *)
Fixpoint decode (pending : option (list ascii)) (l : list ascii) : option (list ascii) :=
  match l, pending with
  | [], None => Some []
  | [], Some _ => None
  | c :: l', None =>
      if Ascii.eqb c "&" then decode (Some []) l'
      else option_map (cons c) (decode None l')
  | c :: l', Some name =>
      if Ascii.eqb c ";" then
        match entity (string_of_list_ascii (rev name)) with
        | Some d => option_map (cons d) (decode None l')
        | None => None
        end
      else decode (Some (c :: name)) l'
  end.

Definition decode_text (l : list ascii) : option string :=
  option_map string_of_list_ascii (decode None l).

(** An attribute value: white space is read as a space, then references
    are replaced. *)
Definition decode_value (l : list ascii) : option string :=
  decode_text (map (fun c => if is_ws c then " "%char else c) l).

Inductive Token :=
| TStart (name : string) (attrs : list (string * string))
| TEmpty (name : string) (attrs : list (string * string))
| TEnd (name : string)
| TText (data : string).

Definition has_attr (name : string) (attrs : list (string * string)) : bool :=
  existsb (fun a => String.eqb (fst a) name) attrs.

(** The attributes of a start tag up to its closing bracket; the boolean
    tells an empty-element tag. *)
Fixpoint attributes (fuel : nat) (l : list ascii) (acc : list (string * string))
  : option (list (string * string) * bool * list ascii) :=
  match fuel with
  | O => None
  | S fuel' =>
      let l1 := skip_ws l in
      match l1 with
      | ">"%char :: r => Some (rev acc, false, r)
      | "/"%char :: ">"%char :: r => Some (rev acc, true, r)
      | _ =>
          if Nat.eqb (length l1) (length l) then None
          else
            match take_name l1 with
            | None => None
            | Some (name, l2) =>
                match skip_ws l2 with
                | "="%char :: l3 =>
                    match skip_ws l3 with
                    | q :: l4 =>
                        if Ascii.eqb q (ascii_of_nat 34) || Ascii.eqb q "'" then
                          let '(raw, l5) :=
                            span (fun c => negb (Ascii.eqb c q) && negb (Ascii.eqb c "<")) l4 in
                          match l5, decode_value raw with
                          | q' :: l6, Some value =>
                              if Ascii.eqb q' q && negb (has_attr name acc)
                                 && negb (String.eqb name "xmlns")
                              then attributes fuel' l6 ((name, value) :: acc)
                              else None
                          | _, _ => None
                          end
                        else None
                    | [] => None
                    end
                | _ => None
                end
            end
      end
  end.

Fixpoint tokens (fuel : nat) (l : list ascii) : option (list Token) :=
  match fuel with
  | O => None
  | S fuel' =>
      match l with
      | [] => Some []
      | "<"%char :: "/"%char :: r =>
          match take_name r with
          | Some (name, r1) =>
              match skip_ws r1 with
              | ">"%char :: r2 => option_map (cons (TEnd name)) (tokens fuel' r2)
              | _ => None
              end
          | None => None
          end
      | "<"%char :: r =>
          match take_name r with
          | Some (name, r1) =>
              match attributes (S (length r1)) r1 [] with
              | Some (attrs, true, r2) => option_map (cons (TEmpty name attrs)) (tokens fuel' r2)
              | Some (attrs, false, r2) => option_map (cons (TStart name attrs)) (tokens fuel' r2)
              | None => None
              end
          | None => None
          end
      | _ =>
          let '(raw, r) := span (fun c => negb (Ascii.eqb c "<")) l in
          if cdata_end raw then None
          else
            match decode_text raw with
            | Some data => option_map (cons (TText data)) (tokens fuel' r)
            | None => None
            end
      end
  end.

(** An element whose end tag has not been read yet, with its children so
    far in reverse. *)
Record Frame := mkFrame
  { f_name : string; f_attrs : list (string * string); f_children : list Node }.

Definition all_ws (s : string) : bool := forallb is_ws (list_ascii_of_string s).

Definition add_child (n : Node) (stack : list Frame) (roots : list Node)
  : option (list Frame * list Node) :=
  match stack with
  | f :: stack' =>
      Some (mkFrame (f_name f) (f_attrs f) (n :: f_children f) :: stack', roots)
  | [] =>
      match n, roots with
      | Element _ _ _, [] => Some ([], [n])
      | Element _ _ _, _ :: _ => None
      | Text data, _ => if all_ws data then Some ([], roots) else None
      end
  end.

Fixpoint build (toks : list Token) (stack : list Frame) (roots : list Node)
  : option (list Node) :=
  match toks with
  | [] => match stack, roots with [], [_] => Some roots | _, _ => None end
  | TText data :: toks' =>
      match add_child (Text data) stack roots with
      | Some (stack', roots') => build toks' stack' roots'
      | None => None
      end
  | TEmpty name attrs :: toks' =>
      match add_child (Element name attrs []) stack roots with
      | Some (stack', roots') => build toks' stack' roots'
      | None => None
      end
  | TStart name attrs :: toks' =>
      match stack, roots with
      | [], _ :: _ => None
      | _, _ => build toks' (mkFrame name attrs [] :: stack) roots
      end
  | TEnd name :: toks' =>
      match stack with
      | f :: stack' =>
          if String.eqb (f_name f) name then
            match add_child (Element name (f_attrs f) (rev (f_children f))) stack' roots with
            | Some (stack'', roots') => build toks' stack'' roots'
            | None => None
            end
          else None
      | [] => None
      end
  end.

(** A quoted value, and what follows its closing quote. *)
Definition quoted (l : list ascii) : option (list ascii * list ascii) :=
  match l with
  | q :: l1 =>
      if Ascii.eqb q (ascii_of_nat 34) || Ascii.eqb q "'" then
        let '(value, l2) := span (fun c => negb (Ascii.eqb c q)) l1 in
        match l2 with
        | _ :: l3 => Some (value, l3)
        | [] => None
        end
      else None
  | [] => None
  end.

Fixpoint after_prefix (p l : list ascii) : option (list ascii) :=
  match p, l with
  | [], _ => Some l
  | a :: p', b :: l' => if Ascii.eqb a b then after_prefix p' l' else None
  | _ :: _, [] => None
  end.

(** [name = "value"] in the XML declaration. *)
Definition pseudo_attribute (name : string) (l : list ascii)
  : option (list ascii * list ascii) :=
  match after_prefix (list_ascii_of_string name) l with
  | Some l1 =>
      match skip_ws l1 with
      | "="%char :: l2 => quoted (skip_ws l2)
      | _ => None
      end
  | None => None
  end.

(** Skip white space, telling whether there was any. *)
Definition separated (l : list ascii) : bool * list ascii :=
  let l' := skip_ws l in (negb (Nat.eqb (length l') (length l)), l').

Definition is_ascii_letter (c : ascii) : bool :=
  let n := nat_of_ascii c in
  ((65 <=? n)%nat && (n <=? 90)%nat) || ((97 <=? n)%nat && (n <=? 122)%nat).

Definition encoding_name (l : list ascii) : bool :=
  match l with
  | c :: l' => is_ascii_letter c && forallb is_name_char l'
  | [] => false
  end.

Definition declaration_end (l : list ascii) : option (list ascii) :=
  match l with
  | "?"%char :: ">"%char :: r => Some r
  | _ => None
  end.

Definition standalone_end (l : list ascii) : option (list ascii) :=
  let '(sep, l') := separated l in
  match (if sep then pseudo_attribute "standalone" l' else None) with
  | Some (value, l1) =>
      let v := string_of_list_ascii value in
      if String.eqb v "yes" || String.eqb v "no" then declaration_end (skip_ws l1)
      else None
  | None => declaration_end l'
  end.

(** The XML declaration after its opening: version 1.0, then an encoding
    name (which is not used: the text is a [str]), then the stand-alone
    mark, the last two optional. *)
Definition declaration (l : list ascii) : option (list ascii) :=
  let '(sep, l0) := separated l in
  match (if sep then pseudo_attribute "version" l0 else None) with
  | Some (version, l1) =>
      if String.eqb (string_of_list_ascii version) "1.0" then
        let '(sep1, l1') := separated l1 in
        match (if sep1 then pseudo_attribute "encoding" l1' else None) with
        | Some (name, l2) => if encoding_name name then standalone_end l2 else None
        | None => standalone_end l1
        end
      else None
  | None => None
  end.

(** An XML declaration may stand at the very start of the text. *)
Definition prolog (l : list ascii) : option (list ascii) :=
  match l with
  | "<"%char :: "?"%char :: "x"%char :: "m"%char :: "l"%char :: r => declaration r
  | _ => Some l
  end.

Definition parseString (text : string) : Outcome Document :=
  let chars := list_ascii_of_string text in
  if forallb is_char chars then
    match prolog (newlines chars) with
    | Some l =>
        match tokens (S (length l)) l with
        | Some toks =>
            match build toks [] [] with
            | Some roots => Return (mkDocument roots)
            | None => Raise (mkExc ExpatError [])
            end
        | None => Raise (mkExc ExpatError [])
        end
    | None => Raise (mkExc ExpatError [])
    end
  else Raise (mkExc ExpatError []).

End Expat.

(** ** Built-in [float] *)

Module Builtins.

(** The white space of ASCII that [float] strips: tab to carriage return,
    and the space. *)
Definition is_space (c : ascii) : bool :=
  let n := nat_of_ascii c in
  ((9 <=? n)%nat && (n <=? 13)%nat) || Nat.eqb n 32.

(** Before that, [float] reads the white space beyond ASCII, the next-line
    character and the no-break space, as a space. *)
Definition to_space (c : ascii) : ascii :=
  let n := nat_of_ascii c in
  if Nat.eqb n 133 || Nat.eqb n 160 then " "%char else c.

Definition is_digit (c : ascii) : bool :=
  let n := nat_of_ascii c in (48 <=? n)%nat && (n <=? 57)%nat.

Fixpoint lstrip (l : list ascii) : list ascii :=
  match l with
  | c :: l' => if is_space c then lstrip l' else l
  | [] => []
  end.

Definition strip (l : list ascii) : list ascii := rev (lstrip (rev (lstrip l))).

(** What follows a run of digits whose first digit has just been read; a
    single underscore may separate two digits. *)
Fixpoint digits_tail (l : list ascii) : list ascii :=
  match l with
  | c :: l' =>
      if is_digit c then digits_tail l'
      else if Ascii.eqb c "_" then
        match l' with
        | d :: l'' => if is_digit d then digits_tail l'' else l
        | [] => l
        end
      else l
  | [] => []
  end.

Definition digitpart (l : list ascii) : option (list ascii) :=
  match l with
  | c :: l' => if is_digit c then Some (digits_tail l') else None
  | [] => None
  end.

Definition sign_opt (l : list ascii) : list ascii :=
  match l with
  | c :: l' => if Ascii.eqb c "+" || Ascii.eqb c "-" then l' else l
  | [] => []
  end.

(** [digitpart [.] [digitpart]] or [. digitpart]. *)
Definition number (l : list ascii) : option (list ascii) :=
  match digitpart l with
  | Some r =>
      match r with
      | "."%char :: r' =>
          match digitpart r' with
          | Some r'' => Some r''
          | None => Some r'
          end
      | _ => Some r
      end
  | None =>
      match l with
      | "."%char :: r' => digitpart r'
      | _ => None
      end
  end.

Definition exponent_end (l : list ascii) : bool :=
  match l with
  | [] => true
  | c :: l' =>
      (Ascii.eqb c "e" || Ascii.eqb c "E")
      && match digitpart (sign_opt l') with
         | Some [] => true
         | _ => false
         end
  end.

Definition inf_or_nan (l : list ascii) : bool :=
  let s := Str.lower (string_of_list_ascii l) in
  String.eqb s "inf" || String.eqb s "infinity" || String.eqb s "nan".

(** Whether [float(s)] accepts the string [s]: surrounding white space, an
    optional sign, then a decimal number with an optional exponent, or an
    infinity or a nan. *)
Definition float_literal (s : string) : bool :=
  let l := sign_opt (strip (map to_space (list_ascii_of_string s))) in
  inf_or_nan l
  || match number l with
     | Some rest => exponent_end rest
     | None => false
     end.

(** [repr] of a string of printable characters other than quotes and
    backslashes. *)
Definition repr_str (s : string) : string := "'" ++ s ++ "'".

(** The exception that [float(x)] raises for [x] a [str] or [None], if it
    raises one.  The client discards the number that [float] computes. *)
Definition float_raises (x : option string) : option PyExc :=
  match x with
  | None =>
      Some (mkExc TypeError
              [PyStr "float() argument must be a string or a real number, not 'NoneType'"])
  | Some s =>
      if float_literal s then None
      else Some (mkExc ValueError
                   [PyStr ("could not convert string to float: " ++ repr_str s)])
  end.

End Builtins.

(** ** [requests] *)

Module Requests.

(** The [auth] argument of a request: a [(user, password)] tuple, which
    [requests] sends as HTTP Basic credentials, or an [HTTPDigestAuth]
    object. *)
Inductive Auth :=
| AuthTuple (credentials : string * string)
| HTTPDigestAuth (username password : string).

Inductive Scheme := Basic | Digest.

Definition scheme (a : Auth) : Scheme :=
  match a with
  | AuthTuple _ => Basic
  | HTTPDigestAuth _ _ => Digest
  end.

Inductive Method := HEAD | POST.

Record Request := mkRequest
  { method : Method;
    url : string;
    auth : option Auth;
    files : gmap string string }.

(** Response headers are a [CaseInsensitiveDict]: its store maps the
    lower-cased name to the name as received and the value. *)
Record Response := mkResponse
  { status_code : Z;
    headers : gmap string (string * string);
    text : string }.

(** [requests.codes.ok]. *)
Definition codes_ok : Z := 200.

(** [headers[key]]. *)
Definition headers_getitem (h : gmap string (string * string)) (key : string)
  : Outcome string :=
  match h !! Str.lower key with
  | Some (_, value) => Return value
  | None => Raise (mkExc KeyError [PyStr (Str.lower key)])
  end.

(** [headers[key] = value]. *)
Definition headers_setitem (key value : string) (h : gmap string (string * string))
  : gmap string (string * string) :=
  <[Str.lower key := (key, value)]> h.

(** The network and the device behind it: what a request is answered with,
    given the requests issued before it. *)
Definition Transport := list Request -> Request -> Outcome Response.

End Requests.

(** ** The [SmartPlug] class *)

Module SmartPlug.
Import Minidom Dom Builtins Requests.

(** The attributes of the instance ([self.domi] is a stateless handle and
    is left out), the requests issued so far, and the lines printed. *)
Record State := mkState
  { self_url : string;
    self_auth : Auth;
    sent : list Request;
    stdout : list string }.

Definition set_url (u : string) : M State unit :=
  modify (fun st => mkState u (self_auth st) (sent st) (stdout st)).

Definition set_auth (a : Auth) : M State unit :=
  modify (fun st => mkState (self_url st) a (sent st) (stdout st)).

Definition print (line : string) : M State unit :=
  modify (fun st => mkState (self_url st) (self_auth st) (sent st) (stdout st ++ [line])%list).

(** Run a builder on a store of its own: the nodes it creates are fresh
    and none of them outlives the call. *)
Definition in_fresh_store {A} (c : Dom A) : M State A :=
  lift (fst (c [])).

Definition failed : PyExc :=
  mkExc Exception [PyStr "Failed to communicate with SmartPlug"].

(** [res != s] for [res] a [str] or [None]. *)
Definition ne_str (res : option string) (s : string) : bool :=
  match res with
  | Some t => negb (String.eqb t s)
  | None => true
  end.

Section Methods.

(** [xml.dom.minidom.parseString]. *)
Variable parseString : string -> Outcome Document.

(** The network. *)
Variable world : Transport.

(** Issue a request. *)
Definition request (r : Request) : M State Response :=
  fun st =>
    (world (sent st) r,
     mkState (self_url st) (self_auth st) (sent st ++ [r])%list (stdout st)).

(** [requests.head(url)]. *)
Definition requests_head (u : string) : M State Response :=
  request (mkRequest HEAD u None ∅).

(** [requests.post(url, auth=auth, files=files)]. *)
Definition requests_post (u : string) (a : Auth) (f : gmap string string)
  : M State Response :=
  request (mkRequest POST u (Some a) f).

(** [__init__(self, host, auth)].  Both attributes are assigned before
    they are read. *)
Definition __init__ (host : string) (auth : string * string) : M State unit :=
  (set_url ("http://" ++ host ++ ":10000/smartplug.cgi") ;;;
   set_auth (AuthTuple auth) ;;;
   u <- gets self_url ;;
   res <- requests_head u ;;
   challenge <- lift (headers_getitem (headers res) "WWW-Authenticate") ;;
   if String.eqb (Str.slice challenge 0 6) "Digest"
   then set_auth (HTTPDigestAuth (fst auth) (snd auth))
   else ret tt)%py.

Definition _xml_cmd_setget_state (cmdId cmdStr : string) : M State string :=
  in_fresh_store
    (doc <- createDocument "SMARTPLUG" ;;
     root <- documentElement doc ;;
     root <- not_none "setAttribute" root ;;
     setAttribute root "id" "edimax" ;;;
     cmd <- createElement "CMD" ;;
     setAttribute cmd "id" cmdId ;;;
     state <- createElement "Device.System.Power.State" ;;
     appendChild cmd state ;;;
     t <- createTextNode cmdStr ;;
     appendChild state t ;;;
     root <- documentElement doc ;;
     root <- not_none "appendChild" root ;;
     appendChild root cmd ;;;
     toxml doc)%py.

Definition _xml_cmd_get_now_power (attribute : string) : M State string :=
  in_fresh_store
    (doc <- createDocument "SMARTPLUG" ;;
     root <- documentElement doc ;;
     root <- not_none "setAttribute" root ;;
     setAttribute root "id" "edimax" ;;;
     cmd <- createElement "CMD" ;;
     setAttribute cmd "id" "get" ;;;
     now_power <- createElement "NOW_POWER" ;;
     appendChild cmd now_power ;;;
     current_power <- createElement ("Device.System.Power." ++ attribute) ;;
     appendChild now_power current_power ;;;
     t <- createTextNode EmptyString ;;
     appendChild current_power t ;;;
     root <- documentElement doc ;;
     root <- not_none "appendChild" root ;;
     appendChild root cmd ;;;
     toxml doc)%py.

Definition _post_xml (xml : string) : M State (option string) :=
  (let files : gmap string string := {[ "file" := xml ]} in
   u <- gets self_url ;;
   a <- gets self_auth ;;
   res <- requests_post u a files ;;
   if (status_code res =? codes_ok)%Z then
     dom <- lift (parseString (text res)) ;;
     try_except
       (cmd <- item0 (doc_getElementsByTagName dom "CMD") ;;
        first <- not_none "nodeValue" (firstChild cmd) ;;
        match nodeValue first with
        | None =>
            cmd <- item0 (doc_getElementsByTagName dom "CMD") ;;
            st <- item0 (getElementsByTagName cmd "Device.System.Power.State") ;;
            first <- not_none "nodeValue" (firstChild st) ;;
            ret (nodeValue first)
        | Some val => ret (Some val)
        end)
       (fun e => print (exc_str e) ;;; ret None)
   else ret None)%py.

Definition _post_xml_now_power (xml : string) : M State (option string) :=
  (let files : gmap string string := {[ "file" := xml ]} in
   u <- gets self_url ;;
   a <- gets self_auth ;;
   res <- requests_post u a files ;;
   if (status_code res =? codes_ok)%Z then
     dom <- lift (parseString (text res)) ;;
     try_except
       (cmd <- item0 (doc_getElementsByTagName dom "CMD") ;;
        first <- not_none "nodeValue" (firstChild cmd) ;;
        match nodeValue first with
        | None =>
            cmd <- item0 (doc_getElementsByTagName dom "CMD") ;;
            np <- item0 (getElementsByTagName cmd "NOW_POWER") ;;
            first <- not_none "firstChild" (firstChild np) ;;
            first <- not_none "nodeValue" (firstChild first) ;;
            ret (nodeValue first)
        | Some val => ret (Some val)
        end)
       (fun e => print (exc_str e) ;;; ret None)
   else ret None)%py.

(** The [state] property, getter. *)
Definition state : M State (option string) :=
  (xml <- _xml_cmd_setget_state "get" EmptyString ;;
   res <- _post_xml xml ;;
   if ne_str res "ON" && ne_str res "OFF" then raise failed
   else ret res)%py.

(** The [state] property, setter. *)
Definition state_setter (value : PyVal) : M State unit :=
  (res <- (if py_eq_str value "ON" || py_eq_str value "on"
           then xml <- _xml_cmd_setget_state "setup" "ON" ;; _post_xml xml
           else xml <- _xml_cmd_setget_state "setup" "OFF" ;; _post_xml xml) ;;
   if ne_str res "OK" then raise failed
   else ret tt)%py.

(** [try: float(res) / except ValueError: raise Exception(...)]. *)
Definition check_float (res : option string) : M State unit :=
  match float_raises res with
  | Some e =>
      if ExcClass_eqb (exc_class e) ValueError then raise failed
      else raise e
  | None => ret tt
  end.

(** The [now_power] property. *)
Definition now_power : M State (option string) :=
  (xml <- _xml_cmd_get_now_power "NowPower" ;;
   res <- _post_xml_now_power xml ;;
   check_float res ;;;
   ret res)%py.

(** The [now_energy_day] property. *)
Definition now_energy_day : M State (option string) :=
  (xml <- _xml_cmd_get_now_power "NowEnergy.Day" ;;
   res <- _post_xml_now_power xml ;;
   check_float res ;;;
   ret res)%py.

End Methods.

End SmartPlug.

(** * Properties of the client *)

Import Minidom Dom Builtins Requests SmartPlug.

(** ** Vocabulary of the statements *)

(** The XML declaration that [toxml] writes in front of a document. *)
Definition xml_declaration : string :=
  "<?xml version=" ++ dquote ++ "1.0" ++ dquote ++ " ?>".

(** The text of a command document around the content of its [CMD]. *)
Definition smartplug_cmd (cmdId content : string) : string :=
  "<SMARTPLUG id=" ++ dquote ++ "edimax" ++ dquote ++ "><CMD id=" ++ dquote
  ++ cmdId ++ dquote ++ ">" ++ content ++ "</CMD></SMARTPLUG>".

(** A state element with its leaf text written between a start and an end
    tag. *)
Definition state_leaf (leaf : string) : string :=
  "<Device.System.Power.State>" ++ leaf ++ "</Device.System.Power.State>".

(** The body of the request that sets the plug to [token]. *)
Definition setup_xml (token : string) : string :=
  xml_declaration ++ smartplug_cmd "setup" (state_leaf token).

(** The body of the request that reads the state. *)
Definition get_state_xml : string :=
  xml_declaration ++ smartplug_cmd "get" (state_leaf EmptyString).

(** The body of the request that reads a metering attribute. *)
Definition get_power_xml (attribute : string) : string :=
  xml_declaration
  ++ smartplug_cmd "get"
       ("<NOW_POWER><Device.System.Power." ++ attribute
        ++ "></Device.System.Power." ++ attribute ++ "></NOW_POWER>").

(** The POST that an accessor issues from state [st] with body [xml]. *)
Definition post_of (st : State) (xml : string) : Request :=
  mkRequest POST (self_url st) (Some (self_auth st)) {[ "file" := xml ]}.

(** State [st] after one more request has been issued. *)
Definition after_request (st : State) (r : Request) : State :=
  mkState (self_url st) (self_auth st) (sent st ++ [r])%list (stdout st).

(** The bodies of the requests issued so far. *)
Definition bodies (st : State) : list (option string) :=
  map (fun r => files r !! "file") (sent st).

(** A transport that answers every request with the same response. *)
Definition answer (code : Z) (hdrs : gmap string (string * string)) (body : string)
  : Transport :=
  fun _ _ => Return (mkResponse code hdrs body).

(** A freshly allocated client object, before [__init__] has run. *)
Definition blank : State := mkState EmptyString (AuthTuple (EmptyString, EmptyString)) [] [].

(** The accessors of the class, for talking about sequences of calls. *)
Inductive Call :=
| GetState
| SetState (value : PyVal)
| GetNowPower
| GetNowEnergyDay.

Definition void {A} (c : M State A) : State -> State := fun st => snd (c st).

(** The state after a call, whether it returned or raised. *)
Definition call (parseString : string -> Outcome Document) (world : Transport)
  (c : Call) : State -> State :=
  match c with
  | GetState => void (state parseString world)
  | SetState value => void (state_setter parseString world value)
  | GetNowPower => void (now_power parseString world)
  | GetNowEnergyDay => void (now_energy_day parseString world)
  end.

Definition calls (parseString : string -> Outcome Document) (world : Transport)
  (cs : list Call) (st : State) : State :=
  fold_left (fun s c => call parseString world c s) cs st.

(** The token that the setter writes for [value]. *)
Definition token_of (value : PyVal) : string :=
  if py_eq_str value "ON" || py_eq_str value "on" then "ON" else "OFF".

(** The body of the one request that a call issues. *)
Definition body_of (c : Call) : string :=
  match c with
  | GetState => get_state_xml
  | SetState value => setup_xml (token_of value)
  | GetNowPower => get_power_xml "NowPower"
  | GetNowEnergyDay => get_power_xml "NowEnergy.Day"
  end.

(** The get-state document as the specification prints it: no XML
    declaration, and the state element as an empty-element tag. *)
Definition spec_get_state_xml : string :=
  smartplug_cmd "get" "<Device.System.Power.State/>".

(** What [float(None)] raises. *)
Definition float_of_none_error : PyExc :=
  mkExc TypeError
    [PyStr "float() argument must be a string or a real number, not 'NoneType'"].

(** A metering response that carries [value] for [attribute]. *)
Definition power_response (attribute value : string) : string :=
  "<CMD><NOW_POWER><Device.System.Power." ++ attribute ++ ">" ++ value
  ++ "</Device.System.Power." ++ attribute ++ "></NOW_POWER></CMD>".

(** The address that the constructor derives from [host]. *)
Definition endpoint (host : string) : string :=
  "http://" ++ host ++ ":10000/smartplug.cgi".

(** The probe of the constructor. *)
Definition probe_of (host : string) : Request :=
  mkRequest HEAD (endpoint host) None ∅.

(** A plug that challenges the probe with a Digest realm. *)
Definition digest_plug : Transport :=
  answer 401 (headers_setitem "WWW-Authenticate" ("Digest realm=" ++ dquote ++ "x" ++ dquote) ∅)
    EmptyString.



(** Characters that [_write_data] leaves as they are. *)
Definition unescaped (c : ascii) : bool :=
  negb (Ascii.eqb c "&") && negb (Ascii.eqb c "<")
  && negb (Ascii.eqb c (ascii_of_nat 34)) && negb (Ascii.eqb c ">").

(** Text without any of the four characters that [_write_data] replaces. *)
Definition markup_free (s : string) : bool :=
  forallb unescaped (list_ascii_of_string s).

(** Characters that cannot open or close a tag or an attribute value. *)
Definition harmless (c : ascii) : bool :=
  negb (Ascii.eqb c "<") && negb (Ascii.eqb c (ascii_of_nat 34))
  && negb (Ascii.eqb c ">").

(** The four replacements, one after the other. *)
Definition escape (s : string) : string :=
  Str.replace ">"%char "&gt;"
    (Str.replace (ascii_of_nat 34) "&quot;"
       (Str.replace "<"%char "&lt;" (Str.replace "&"%char "&amp;" s))).

(** A transport behind which nothing answers. *)
Definition unreachable : Transport :=
  fun _ _ => Raise (mkExc ConnectionError []).



(** What the [try] statement of the meter accessors makes of a value. *)
Definition checked (res : option string) : Outcome (option string) :=
  match float_raises res with
  | Some e => if ExcClass_eqb (exc_class e) ValueError then Raise failed else Raise e
  | None => Return res
  end.

(** A transport whose answers do not depend on the requests issued before:
    a device whose state does not change. *)
Definition stateless (world : Transport) : Prop :=
  forall log log' r, world log r = world log' r.

(** A plug that is on and answers every request alike. *)
Definition plug_on : Transport :=
  answer 200 ∅ "<CMD><Device.System.Power.State>ON</Device.System.Power.State></CMD>".

(** The text directly in an element: the data of its text children. *)
Definition direct_text (n : Node) : string :=
  match n with
  | Element _ _ childNodes =>
      String.concat EmptyString
        (map (fun c => match c with Text data => data | Element _ _ _ => EmptyString end)
           childNodes)
  | Text _ => EmptyString
  end.

(** ** The command builders *)

Lemma xml_get_state st :
  _xml_cmd_setget_state "get" EmptyString st = (Return get_state_xml, st).
Proof. reflexivity. Qed.

Lemma xml_setup_on st :
  _xml_cmd_setget_state "setup" "ON" st = (Return (setup_xml "ON"), st).
Proof. reflexivity. Qed.

Lemma xml_setup_off st :
  _xml_cmd_setget_state "setup" "OFF" st = (Return (setup_xml "OFF"), st).
Proof. reflexivity. Qed.

Lemma xml_now_power st :
  _xml_cmd_get_now_power "NowPower" st = (Return (get_power_xml "NowPower"), st).
Proof. reflexivity. Qed.

Lemma xml_now_energy_day st :
  _xml_cmd_get_now_power "NowEnergy.Day" st
  = (Return (get_power_xml "NowEnergy.Day"), st).
Proof. reflexivity. Qed.

(** ** The POST helpers *)

Ltac unfold_monad :=
  unfold requests_post, requests_head, request, try_except, item0, not_none,
    print, set_url, set_auth, bind, ret, gets, lift, raise, modify in *.

Section Helpers.

Variable parseString : string -> Outcome Document.
Variable world : Transport.

(** Either helper issues exactly one request, the POST of its argument
    under the stored credentials, and leaves the attributes alone. *)
Lemma post_xml_frame xml st :
  let st' := snd (_post_xml parseString world xml st) in
  self_url st' = self_url st /\ self_auth st' = self_auth st
  /\ sent st' = (sent st ++ [post_of st xml])%list.
Proof.
  unfold _post_xml, post_of. unfold_monad.
  repeat case_match; simplify_eq/=; done.
Qed.

Lemma post_xml_now_power_frame xml st :
  let st' := snd (_post_xml_now_power parseString world xml st) in
  self_url st' = self_url st /\ self_auth st' = self_auth st
  /\ sent st' = (sent st ++ [post_of st xml])%list.
Proof.
  unfold _post_xml_now_power, post_of. unfold_monad.
  repeat case_match; simplify_eq/=; done.
Qed.

(** A response whose status is not 200 is not parsed: the helper returns
    [None] whatever the text is, and prints nothing. *)
Lemma post_xml_not_ok xml st resp :
  world (sent st) (post_of st xml) = Return resp ->
  status_code resp <> codes_ok ->
  _post_xml parseString world xml st = (Return None, after_request st (post_of st xml)).
Proof.
  intros Hw Hs. unfold _post_xml. unfold_monad. fold (post_of st xml).
  rewrite Hw. apply Z.eqb_neq in Hs. rewrite Hs. reflexivity.
Qed.

Lemma post_xml_now_power_not_ok xml st resp :
  world (sent st) (post_of st xml) = Return resp ->
  status_code resp <> codes_ok ->
  _post_xml_now_power parseString world xml st
  = (Return None, after_request st (post_of st xml)).
Proof.
  intros Hw Hs. unfold _post_xml_now_power. unfold_monad. fold (post_of st xml).
  rewrite Hw. apply Z.eqb_neq in Hs. rewrite Hs. reflexivity.
Qed.

End Helpers.

(** ** The accessors: what is sent, and what becomes of the attributes *)

Section Accessors.

Variable parseString : string -> Outcome Document.
Variable world : Transport.

Lemma state_setter_run value st :
  state_setter parseString world value st
  = match _post_xml parseString world (setup_xml (token_of value)) st with
    | (Return res, st') =>
        if ne_str res "OK" then (Raise failed, st') else (Return tt, st')
    | (Raise e, st') => (Raise e, st')
    end.
Proof.
  unfold state_setter, token_of, bind.
  destruct (py_eq_str value "ON" || py_eq_str value "on").
  - rewrite xml_setup_on.
    destruct (_post_xml parseString world (setup_xml "ON") st) as [[e|res] st']; [done|].
    unfold raise, ret. by destruct (ne_str res "OK").
  - rewrite xml_setup_off.
    destruct (_post_xml parseString world (setup_xml "OFF") st) as [[e|res] st']; [done|].
    unfold raise, ret. by destruct (ne_str res "OK").
Qed.

Lemma state_run st :
  state parseString world st
  = match _post_xml parseString world get_state_xml st with
    | (Return res, st') =>
        if ne_str res "ON" && ne_str res "OFF" then (Raise failed, st')
        else (Return res, st')
    | (Raise e, st') => (Raise e, st')
    end.
Proof.
  unfold state, bind. rewrite xml_get_state.
  destruct (_post_xml parseString world get_state_xml st) as [[e|res] st']; [done|].
  unfold raise, ret. by destruct (ne_str res "ON" && ne_str res "OFF").
Qed.

Lemma check_float_state res st : snd (check_float res st) = st.
Proof.
  unfold check_float, raise, ret.
  destruct (float_raises res) as [e|]; [|done].
  by destruct (ExcClass_eqb (exc_class e) ValueError).
Qed.

Lemma now_power_run st :
  now_power parseString world st
  = match _post_xml_now_power parseString world (get_power_xml "NowPower") st with
    | (Return res, st') =>
        match check_float res st' with
        | (Return _, st'') => (Return res, st'')
        | (Raise e, st'') => (Raise e, st'')
        end
    | (Raise e, st') => (Raise e, st')
    end.
Proof.
  unfold now_power, bind. rewrite xml_now_power.
  destruct (_post_xml_now_power parseString world (get_power_xml "NowPower") st)
    as [[e|res] st']; [done|].
  by destruct (check_float res st') as [[e|[]] st''].
Qed.

Lemma now_energy_day_run st :
  now_energy_day parseString world st
  = match _post_xml_now_power parseString world (get_power_xml "NowEnergy.Day") st with
    | (Return res, st') =>
        match check_float res st' with
        | (Return _, st'') => (Return res, st'')
        | (Raise e, st'') => (Raise e, st'')
        end
    | (Raise e, st') => (Raise e, st')
    end.
Proof.
  unfold now_energy_day, bind. rewrite xml_now_energy_day.
  destruct (_post_xml_now_power parseString world (get_power_xml "NowEnergy.Day") st)
    as [[e|res] st']; [done|].
  by destruct (check_float res st') as [[e|[]] st''].
Qed.

(** The state after an accessor is the state after its POST helper. *)
Lemma state_setter_state value st :
  snd (state_setter parseString world value st)
  = snd (_post_xml parseString world (setup_xml (token_of value)) st).
Proof.
  rewrite state_setter_run.
  destruct (_post_xml _ _ _ _) as [[e|res] st']; [done|].
  by destruct (ne_str res "OK").
Qed.

Lemma state_state st :
  snd (state parseString world st)
  = snd (_post_xml parseString world get_state_xml st).
Proof.
  rewrite state_run.
  destruct (_post_xml _ _ _ _) as [[e|res] st']; [done|].
  by destruct (ne_str res "ON" && ne_str res "OFF").
Qed.

Lemma now_power_state st :
  snd (now_power parseString world st)
  = snd (_post_xml_now_power parseString world (get_power_xml "NowPower") st).
Proof.
  rewrite now_power_run.
  destruct (_post_xml_now_power _ _ _ _) as [[e|res] st']; [done|].
  pose proof (check_float_state res st') as H.
  destruct (check_float res st') as [[e|[]] st'']; simpl in *; by subst.
Qed.

Lemma now_energy_day_state st :
  snd (now_energy_day parseString world st)
  = snd (_post_xml_now_power parseString world (get_power_xml "NowEnergy.Day") st).
Proof.
  rewrite now_energy_day_run.
  destruct (_post_xml_now_power _ _ _ _) as [[e|res] st']; [done|].
  pose proof (check_float_state res st') as H.
  destruct (check_float res st') as [[e|[]] st'']; simpl in *; by subst.
Qed.

(** Every accessor issues exactly one request, a POST under the stored
    credentials, and assigns to no attribute. *)
Lemma call_frame c st :
  let st' := call parseString world c st in
  self_url st' = self_url st /\ self_auth st' = self_auth st
  /\ sent st' = (sent st ++ [post_of st (body_of c)])%list.
Proof.
  destruct c; unfold call, void, body_of.
  - rewrite state_state. apply post_xml_frame.
  - rewrite state_setter_state. apply post_xml_frame.
  - rewrite now_power_state. apply post_xml_now_power_frame.
  - rewrite now_energy_day_state. apply post_xml_now_power_frame.
Qed.

End Accessors.

(** ** Command documents (C4) *)

(** C4, as stated, fails: the get-state builder does not produce the byte
    string of the specification.  [toxml] puts an XML declaration in front,
    and the state element, which holds an (empty) text node, is written with
    a start and an end tag. *)
Lemma get_state_xml_is_not_the_spec_shape :
  fst (_xml_cmd_setget_state "get" EmptyString blank) <> Return spec_get_state_xml
  /\ fst (_xml_cmd_setget_state "get" EmptyString blank)
     = Return (xml_declaration ++ smartplug_cmd "get"
                 "<Device.System.Power.State></Device.System.Power.State>").
Proof. split; [vm_compute; discriminate | reflexivity]. Qed.

(** C4, amended: for every command variant the builder is a pure function
    (it returns the same text from every state, and leaves the state, hence
    the requests issued and the lines printed, as they were) whose result is
    exactly the XML declaration followed by the SMARTPLUG document, with the
    leaf element written as a start tag, its text, and an end tag. *)
Theorem command_builders_exact_text (st : State) :
  _xml_cmd_setget_state "get" EmptyString st
  = (Return (xml_declaration ++ smartplug_cmd "get"
               "<Device.System.Power.State></Device.System.Power.State>"), st)
  /\ _xml_cmd_setget_state "setup" "ON" st
     = (Return (xml_declaration ++ smartplug_cmd "setup"
                  "<Device.System.Power.State>ON</Device.System.Power.State>"), st)
  /\ _xml_cmd_setget_state "setup" "OFF" st
     = (Return (xml_declaration ++ smartplug_cmd "setup"
                  "<Device.System.Power.State>OFF</Device.System.Power.State>"), st)
  /\ _xml_cmd_get_now_power "NowPower" st
     = (Return (xml_declaration ++ smartplug_cmd "get"
                  "<NOW_POWER><Device.System.Power.NowPower></Device.System.Power.NowPower></NOW_POWER>"),
        st)
  /\ _xml_cmd_get_now_power "NowEnergy.Day" st
     = (Return (xml_declaration ++ smartplug_cmd "get"
                  "<NOW_POWER><Device.System.Power.NowEnergy.Day></Device.System.Power.NowEnergy.Day></NOW_POWER>"),
        st).
Proof. repeat split; reflexivity. Qed.

(** ** Setting the state (C1, C9) *)

Lemma lower_off_token s : Str.lower s = "off" -> token_of (PyStr s) = "OFF".
Proof.
  intros H. unfold token_of, py_eq_str.
  destruct (String.eqb_spec s "ON") as [->|_]; [discriminate H|].
  destruct (String.eqb_spec s "on") as [->|_]; [discriminate H|].
  reflexivity.
Qed.

(** C1, as stated, fails: [On] is a casing of [on], yet the setter sends
    the OFF command for it. *)
Lemma setter_sends_off_for_mixed_case_on :
  Str.lower "On" = "on"
  /\ bodies (snd (state_setter Expat.parseString (answer 200 ∅ "<CMD>OK</CMD>")
                    (PyStr "On") blank))
     = [Some (setup_xml "OFF")]
  /\ setup_xml "OFF" <> setup_xml "ON".
Proof.
  split; [reflexivity|]. split; [vm_compute; reflexivity|].
  vm_compute. discriminate.
Qed.

(** C1, amended: for the values [ON] and [on] the setter sends a setup
    command whose leaf text is [ON], and for every casing of [off] one whose
    leaf text is [OFF]; the calls with [on] and with [ON] issue the same
    request and end alike. *)
Theorem setter_sends_canonical_token parseString world st (s token : string) :
  (s = "ON" \/ s = "on") /\ token = "ON" \/ Str.lower s = "off" /\ token = "OFF" ->
  sent (snd (state_setter parseString world (PyStr s) st))
  = (sent st
     ++ [post_of st
           (xml_declaration ++ smartplug_cmd "setup"
              ("<Device.System.Power.State>" ++ token ++ "</Device.System.Power.State>"))])%list
  /\ state_setter parseString world (PyStr "on") st
     = state_setter parseString world (PyStr "ON") st.
Proof.
  intros H. split; [|by rewrite !state_setter_run].
  rewrite state_setter_state.
  assert (token_of (PyStr s) = token) as ->.
  { destruct H as [[[-> | ->] ->] | [Hoff ->]]; [done | done |].
    by apply lower_off_token. }
  apply post_xml_frame.
Qed.

Lemma setter_sends_canonical_token_witness :
  sent (snd (state_setter Expat.parseString (answer 200 ∅ "<CMD>OK</CMD>")
               (PyStr "oFf") blank))
  = (sent blank ++ [post_of blank (setup_xml "OFF")])%list
  /\ state_setter Expat.parseString (answer 200 ∅ "<CMD>OK</CMD>") (PyStr "on") blank
     = state_setter Expat.parseString (answer 200 ∅ "<CMD>OK</CMD>") (PyStr "ON") blank.
Proof.
  apply (setter_sends_canonical_token Expat.parseString
           (answer 200 ∅ "<CMD>OK</CMD>") blank "oFf" "OFF").
  right. split; reflexivity.
Defined.

(** C9: whatever the argument, the setter performs no validation: it goes
    straight to the network with exactly one request; and for every argument
    other than the strings [ON] and [on] (mixed case, arbitrary strings,
    values that are not strings) that request is the OFF setup command. *)
Theorem setter_defaults_to_off parseString world st (value : PyVal) :
  value <> PyStr "ON" -> value <> PyStr "on" ->
  sent (snd (state_setter parseString world value st))
  = (sent st ++ [post_of st (setup_xml "OFF")])%list
  /\ files (post_of st (setup_xml "OFF")) !! "file"
     = Some (xml_declaration ++ smartplug_cmd "setup"
               "<Device.System.Power.State>OFF</Device.System.Power.State>")
  /\ forall any : PyVal,
       exists xml, sent (snd (state_setter parseString world any st))
                   = (sent st ++ [post_of st xml])%list.
Proof.
  intros Hon Hlow.
  assert (token_of value = "OFF") as Htok.
  { unfold token_of. destruct value as [| | |s]; try reflexivity. simpl.
    destruct (String.eqb_spec s "ON") as [->|_]; [done|].
    destruct (String.eqb_spec s "on") as [->|_]; [done|]. reflexivity. }
  split; [|split].
  - rewrite state_setter_state, Htok. apply post_xml_frame.
  - unfold post_of. simpl. by rewrite lookup_singleton_eq.
  - intros any. exists (setup_xml (token_of any)).
    rewrite state_setter_state. apply post_xml_frame.
Qed.

Lemma setter_defaults_to_off_witness :
  sent (snd (state_setter Expat.parseString (answer 200 ∅ "<CMD>OK</CMD>")
               (PyInt 1) blank))
  = (sent blank ++ [post_of blank (setup_xml "OFF")])%list.
Proof.
  apply (setter_defaults_to_off Expat.parseString
           (answer 200 ∅ "<CMD>OK</CMD>") blank (PyInt 1)); discriminate.
Defined.

(** ** Reading the state (C3) *)

(** C3: with [parsed] the value that the POST helper extracts from the
    response to the get-state command ([None] when there is none), the
    getter returns a value exactly when [parsed] is the string [ON] or the
    string [OFF], and then it returns [parsed]; for every other [parsed],
    [None] included, it raises. *)
Theorem getter_returns_iff_on_or_off parseString world st st'
    (parsed : option string) :
  _post_xml parseString world get_state_xml st = (Return parsed, st') ->
  ((exists v, fst (state parseString world st) = Return v)
   <-> parsed = Some "ON" \/ parsed = Some "OFF")
  /\ (parsed = Some "ON" \/ parsed = Some "OFF" ->
      state parseString world st = (Return parsed, st'))
  /\ (~ (parsed = Some "ON" \/ parsed = Some "OFF") ->
      state parseString world st = (Raise failed, st')).
Proof.
  intros Hpost. rewrite state_run, Hpost.
  assert (ne_str parsed "ON" && ne_str parsed "OFF" = false
          <-> parsed = Some "ON" \/ parsed = Some "OFF") as Hiff.
  { destruct parsed as [s|]; simpl.
    - destruct (String.eqb_spec s "ON") as [->|Hon]; simpl.
      + split; [intros _; by left | done].
      + destruct (String.eqb_spec s "OFF") as [->|Hoff]; simpl.
        * split; [intros _; by right | done].
        * split; [discriminate | intros [H|H]; congruence].
    - split; [discriminate | intros [H|H]; discriminate]. }
  destruct (ne_str parsed "ON" && ne_str parsed "OFF") eqn:Hne.
  - assert (~ (parsed = Some "ON" \/ parsed = Some "OFF")) as Hnot.
    { intros H. apply Hiff in H. discriminate. }
    split; [|split]; [|done|done].
    split; [intros [v Hv]; discriminate | done].
  - assert (parsed = Some "ON" \/ parsed = Some "OFF") as Hin by by apply Hiff.
    split; [|split]; [|done|done].
    split; [done | by exists parsed].
Qed.

Lemma getter_returns_iff_on_or_off_witness :
  state Expat.parseString
    (answer 200 ∅ "<CMD><Device.System.Power.State>ON</Device.System.Power.State></CMD>")
    blank
  = (Return (Some "ON"), after_request blank (post_of blank get_state_xml)).
Proof.
  apply (getter_returns_iff_on_or_off Expat.parseString
           (answer 200 ∅ "<CMD><Device.System.Power.State>ON</Device.System.Power.State></CMD>")
           blank (after_request blank (post_of blank get_state_xml)) (Some "ON")).
  - vm_compute. reflexivity.
  - left. reflexivity.
Defined.

(** ** Responses that are not OK (C5) *)

(** C5, as stated, fails: behind an HTTP 500 the getter raises the generic
    exception of the class, whose arguments do not hold the status code; the
    same exception is raised behind an HTTP 404. *)
Lemma error_behind_http_500_has_no_status :
  exists e,
    fst (state Expat.parseString (answer 500 ∅ EmptyString) blank) = Raise e
    /\ exc_class e = Exception
    /\ ~ In (PyInt 500) (exc_args e)
    /\ fst (state Expat.parseString (answer 404 ∅ EmptyString) blank) = Raise e.
Proof.
  exists failed. split; [vm_compute; reflexivity|]. split; [reflexivity|].
  split; [|vm_compute; reflexivity].
  simpl. intros [H|[]]. discriminate H.
Qed.

(** C5, amended: when the POST is answered with a status other than 200
    (so with every status that is not 2xx), every accessor fails, having
    issued its one request and nothing else: the response text is not
    parsed (the outcome is the same for every text and every parser, and
    nothing is printed).  The getter and the setter raise the generic
    [Exception("Failed to communicate with SmartPlug")], which holds no
    status code. *)
Theorem not_ok_status_fails_every_accessor parseString world st :
  (forall xml, exists resp,
      world (sent st) (post_of st xml) = Return resp /\ status_code resp <> 200%Z) ->
  state parseString world st
  = (Raise failed, after_request st (post_of st get_state_xml))
  /\ (forall value,
        state_setter parseString world value st
        = (Raise failed, after_request st (post_of st (setup_xml (token_of value)))))
  /\ (exists e,
        now_power parseString world st
        = (Raise e, after_request st (post_of st (get_power_xml "NowPower"))))
  /\ (exists e,
        now_energy_day parseString world st
        = (Raise e, after_request st (post_of st (get_power_xml "NowEnergy.Day"))))
  /\ forall code : Z, ~ In (PyInt code) (exc_args failed).
Proof.
  intros Hw.
  assert (forall xml, _post_xml parseString world xml st
                      = (Return None, after_request st (post_of st xml))) as Hpost.
  { intros xml. destruct (Hw xml) as (resp & Hresp & Hcode).
    by apply (post_xml_not_ok _ _ _ _ resp). }
  assert (forall xml, _post_xml_now_power parseString world xml st
                      = (Return None, after_request st (post_of st xml))) as Hpow.
  { intros xml. destruct (Hw xml) as (resp & Hresp & Hcode).
    by apply (post_xml_now_power_not_ok _ _ _ _ resp). }
  split; [|split; [|split; [|split]]].
  - by rewrite state_run, Hpost.
  - intros value. by rewrite state_setter_run, Hpost.
  - rewrite now_power_run, Hpow. eexists. reflexivity.
  - rewrite now_energy_day_run, Hpow. eexists. reflexivity.
  - intros code [H|[]]. discriminate H.
Qed.

Lemma not_ok_status_fails_every_accessor_witness :
  state Expat.parseString (answer 500 ∅ "<CMD>OK</CMD>") blank
  = (Raise failed, after_request blank (post_of blank get_state_xml)).
Proof.
  apply (not_ok_status_fails_every_accessor Expat.parseString
           (answer 500 ∅ "<CMD>OK</CMD>") blank).
  intros xml. exists (mkResponse 500 ∅ "<CMD>OK</CMD>").
  split; [reflexivity | discriminate].
Defined.

(** ** Reading the meter (C2, C10) *)

Section Meter.

Variable parseString : string -> Outcome Document.
Variable world : Transport.

(** The two ways in which the power helper comes to return [None]: a
    status that is not OK, and an exception in the extraction, which is
    printed and dropped (here: a response without a [CMD] element, and a
    [CMD] element without children). *)
Lemma power_helper_none_sources xml st resp :
  world (sent st) (post_of st xml) = Return resp ->
  (status_code resp <> codes_ok ->
   _post_xml_now_power parseString world xml st
   = (Return None, after_request st (post_of st xml)))
  /\ (forall doc,
        status_code resp = codes_ok ->
        parseString (text resp) = Return doc ->
        doc_getElementsByTagName doc "CMD" = [] ->
        fst (_post_xml_now_power parseString world xml st) = Return None)
  /\ (forall doc cmd rest,
        status_code resp = codes_ok ->
        parseString (text resp) = Return doc ->
        doc_getElementsByTagName doc "CMD" = cmd :: rest ->
        firstChild cmd = None ->
        fst (_post_xml_now_power parseString world xml st) = Return None).
Proof.
  intros Hw. split; [|split].
  - intros Hs. by apply (post_xml_now_power_not_ok _ _ _ _ resp).
  - intros doc Hs Hdoc Hcmd. unfold _post_xml_now_power. unfold_monad.
    fold (post_of st xml). rewrite Hw, Hs, Hdoc, Hcmd. reflexivity.
  - intros doc cmd rest Hs Hdoc Hcmd Hfirst. unfold _post_xml_now_power.
    unfold_monad. fold (post_of st xml). rewrite Hw, Hs, Hdoc, Hcmd, Hfirst.
    reflexivity.
Qed.

Lemma now_power_of_helper st res st' :
  _post_xml_now_power parseString world (get_power_xml "NowPower") st = (Return res, st') ->
  now_power parseString world st
  = match res with
    | None => (Raise float_of_none_error, st')
    | Some s => if float_literal s then (Return (Some s), st') else (Raise failed, st')
    end.
Proof.
  intros H. rewrite now_power_run, H. unfold check_float, float_raises.
  destruct res as [s|]; [|reflexivity].
  by destruct (float_literal s).
Qed.

Lemma now_energy_day_of_helper st res st' :
  _post_xml_now_power parseString world (get_power_xml "NowEnergy.Day") st
  = (Return res, st') ->
  now_energy_day parseString world st
  = match res with
    | None => (Raise float_of_none_error, st')
    | Some s => if float_literal s then (Return (Some s), st') else (Raise failed, st')
    end.
Proof.
  intros H. rewrite now_energy_day_run, H. unfold check_float, float_raises.
  destruct res as [s|]; [|reflexivity].
  by destruct (float_literal s).
Qed.

End Meter.

(** C10: whenever the power helper yields [None], [now_power] and
    [now_energy_day] raise the [TypeError] of [float(None)], which is not
    the exception they raise for text that is not a number; and the helper
    yields [None] both behind a status that is not OK and after an exception
    in the extraction has been printed and dropped. *)
Theorem power_accessors_raise_TypeError_on_None parseString world st st' :
  _post_xml_now_power parseString world (get_power_xml "NowPower") st
  = (Return None, st') ->
  now_power parseString world st = (Raise float_of_none_error, st')
  /\ (forall st'',
        _post_xml_now_power parseString world (get_power_xml "NowEnergy.Day") st
        = (Return None, st'') ->
        now_energy_day parseString world st = (Raise float_of_none_error, st''))
  /\ exc_class float_of_none_error = TypeError
  /\ exc_class failed <> TypeError
  /\ (forall s st1,
        float_literal s = false ->
        _post_xml_now_power parseString world (get_power_xml "NowPower") st
        = (Return (Some s), st1) ->
        now_power parseString world st = (Raise failed, st1))
  /\ (forall xml resp,
        world (sent st) (post_of st xml) = Return resp ->
        status_code resp <> codes_ok ->
        fst (_post_xml_now_power parseString world xml st) = Return None)
  /\ (forall xml resp doc,
        world (sent st) (post_of st xml) = Return resp ->
        status_code resp = codes_ok ->
        parseString (text resp) = Return doc ->
        doc_getElementsByTagName doc "CMD" = [] ->
        _post_xml_now_power parseString world xml st
        = (Return None,
           mkState (self_url st) (self_auth st) (sent st ++ [post_of st xml])%list
             (stdout st ++ ["list index out of range"])%list)).
Proof.
  intros Hnone. split; [|split; [|split; [|split; [|split; [|split]]]]].
  - by rewrite (now_power_of_helper _ _ _ _ _ Hnone).
  - intros st'' H. by rewrite (now_energy_day_of_helper _ _ _ _ _ H).
  - reflexivity.
  - discriminate.
  - intros s st1 Hs H. by rewrite (now_power_of_helper _ _ _ _ _ H), Hs.
  - intros xml resp Hw Hs.
    by rewrite (post_xml_now_power_not_ok _ _ _ _ resp).
  - intros xml resp doc Hw Hs Hdoc Hcmd. unfold _post_xml_now_power.
    unfold_monad. fold (post_of st xml). rewrite Hw, Hs, Hdoc, Hcmd. reflexivity.
Qed.

Lemma power_accessors_raise_TypeError_on_None_witness :
  now_power Expat.parseString (answer 500 ∅ EmptyString) blank
  = (Raise float_of_none_error,
     after_request blank (post_of blank (get_power_xml "NowPower"))).
Proof.
  apply (power_accessors_raise_TypeError_on_None Expat.parseString
           (answer 500 ∅ EmptyString) blank
           (after_request blank (post_of blank (get_power_xml "NowPower")))).
  vm_compute. reflexivity.
Defined.

(** C2, on the code: for a response that carries a number, the accessors
    return the text of the response as it is, a [str]; the number that
    [float] computes is dropped.  Text that is not a number makes them raise
    the exception of the class, and an empty element, from which no text is
    extracted, the [TypeError] of [float(None)]. *)
Theorem power_accessors_return_text :
  fst (now_power Expat.parseString
         (answer 200 ∅ (power_response "NowPower" "12.3")) blank)
  = Return (Some "12.3")
  /\ fst (now_energy_day Expat.parseString
            (answer 200 ∅ (power_response "NowEnergy.Day" "0.5")) blank)
     = Return (Some "0.5")
  /\ fst (now_power Expat.parseString
            (answer 200 ∅ (power_response "NowPower" "n/a")) blank)
     = Raise failed
  /\ fst (now_power Expat.parseString
            (answer 200 ∅ (power_response "NowPower" EmptyString)) blank)
     = Raise float_of_none_error.
Proof. repeat split; vm_compute; reflexivity. Qed.

(** ** Extracting the value of a response (C6) *)

Section Extraction.

Variable parseString : string -> Outcome Document.
Variable world : Transport.



End Extraction.

(** *** The parser on the two response shapes, for any leaf text *)

Lemma append_cons (a : ascii) (s t : string) : String a s ++ t = String a (s ++ t).
Proof. reflexivity. Qed.








Lemma list_ascii_app (s t : string) :
  list_ascii_of_string (s ++ t)
  = (list_ascii_of_string s ++ list_ascii_of_string t)%list.
Proof.
  induction s as [|a s IH]; [done|].
  rewrite append_cons. simpl. by rewrite IH.
Qed.







(** C6, as stated, fails in its general rule: in [<CMD><x/>OK</CMD>] the
    [CMD] element has the direct text [OK], present and not empty, yet the
    helper does not take it: the first child of [CMD] is the element [x],
    so the state element is looked for, is not found, and the failure is
    printed and turned into [None]. *)
Lemma direct_text_after_an_element_is_not_taken :
  exists cmd,
    Expat.parseString "<CMD><x/>OK</CMD>" = Return (mkDocument [cmd])
    /\ direct_text cmd = "OK"
    /\ _post_xml Expat.parseString (answer 200 ∅ "<CMD><x/>OK</CMD>") get_state_xml blank
       = (Return None,
          mkState (self_url blank) (self_auth blank) [post_of blank get_state_xml]
            ["list index out of range"]).
Proof.
  exists (Element "CMD" [] [Element "x" [] []; Text "OK"]).
  split; [reflexivity|]. split; [reflexivity|]. vm_compute. reflexivity.
Qed.



(** ** Construction and the authentication scheme (C7, C8) *)

Lemma slice_prefix (p s : string) :
  String.eqb (String.substring 0 (String.length p) s) p = String.prefix p s.
Proof.
  revert s. induction p as [|a p IH]; intros s; simpl.
  - by destruct s.
  - destruct s as [|b s]; simpl; [done|].
    rewrite <- IH. destruct (Ascii.eqb_spec b a) as [->|Hne].
    + destruct (ascii_dec a a); [done | congruence].
    + destruct (ascii_dec a b); [congruence | done].
Qed.

Lemma slice_digest challenge :
  String.eqb (Str.slice challenge 0 6) "Digest" = Str.startswith "Digest" challenge.
Proof. apply (slice_prefix "Digest"). Qed.

Section Construction.

Variable world : Transport.

Lemma init_run host credentials st :
  __init__ world host credentials st
  = let st1 := mkState (endpoint host) (AuthTuple credentials)
                 (sent st ++ [probe_of host])%list (stdout st) in
    match world (sent st) (probe_of host) with
    | Raise e => (Raise e, st1)
    | Return res =>
        match headers_getitem (headers res) "WWW-Authenticate" with
        | Raise e => (Raise e, st1)
        | Return challenge =>
            if Str.startswith "Digest" challenge
            then (Return tt,
                  mkState (endpoint host)
                    (HTTPDigestAuth (fst credentials) (snd credentials))
                    (sent st ++ [probe_of host])%list (stdout st))
            else (Return tt, st1)
        end
    end.
Proof.
  unfold __init__. unfold_monad. simpl. fold (endpoint host). fold (probe_of host).
  destruct (world (sent st) (probe_of host)) as [e|res]; [done|].
  destruct (headers_getitem (headers res) "WWW-Authenticate") as [e|challenge]; [done|].
  rewrite slice_digest. by destruct (Str.startswith "Digest" challenge).
Qed.

End Construction.

Section Calls.

Variable parseString : string -> Outcome Document.
Variable world : Transport.

(** A sequence of accessor calls issues one POST per call, each under the
    credentials stored at its start, and assigns to no attribute. *)
Lemma calls_frame cs st :
  let st' := calls parseString world cs st in
  self_url st' = self_url st /\ self_auth st' = self_auth st
  /\ sent st' = (sent st ++ map (fun c => post_of st (body_of c)) cs)%list.
Proof.
  revert st. induction cs as [|c cs IH]; intros st; simpl.
  - by rewrite app_nil_r.
  - destruct (call_frame parseString world c st) as (Hu & Ha & Hs).
    destruct (IH (call parseString world c st)) as (Hu' & Ha' & Hs').
    unfold calls in *. simpl in *.
    rewrite Hu', Ha', Hs', Hs, Hu, Ha. split; [done|]. split; [done|].
    rewrite <- app_assoc. f_equal. simpl. f_equal.
    apply map_ext. intros c'. unfold post_of. by rewrite Hu, Ha.
Qed.

End Calls.

Lemma startswith_app (p s : string) :
  Str.startswith p s = true <-> exists rest, s = p ++ rest.
Proof.
  unfold Str.startswith. revert s. induction p as [|a p IH]; intros s; simpl.
  - split; [intros _; by exists s | by destruct s].
  - destruct s as [|b s]; simpl.
    + split; [done | intros [rest H]; rewrite append_cons in H; discriminate H].
    + destruct (ascii_dec a b) as [->|Hne].
      * rewrite IH. split; intros [rest H]; exists rest;
          rewrite append_cons in *; congruence.
      * split; [done | intros [rest H]; rewrite append_cons in H; congruence].
Qed.

(** C7: a client that has been constructed has issued one request, the
    unauthenticated probe; the probe response carries a [WWW-Authenticate]
    value, and the client's scheme is Digest exactly when that value begins
    with [Digest], and Basic otherwise, with the credentials supplied.
    After any sequence of accessor calls the stored credentials are the
    same, and the requests issued by the calls are POSTs to the endpoint
    under these credentials, one per call. *)
Theorem scheme_resolved_once_by_probe parseString world host credentials st st1 :
  __init__ world host credentials st = (Return tt, st1) ->
  exists probe challenge,
    sent st1 = (sent st ++ [probe_of host])%list
    /\ auth (probe_of host) = None
    /\ world (sent st) (probe_of host) = Return probe
    /\ headers_getitem (headers probe) "WWW-Authenticate" = Return challenge
    /\ (scheme (self_auth st1) = Digest <-> exists rest, challenge = "Digest" ++ rest)
    /\ (scheme (self_auth st1) = Basic <-> ~ exists rest, challenge = "Digest" ++ rest)
    /\ self_auth st1
       = (if Str.startswith "Digest" challenge
          then HTTPDigestAuth (fst credentials) (snd credentials)
          else AuthTuple credentials)
    /\ forall cs : list Call,
         self_auth (calls parseString world cs st1) = self_auth st1
         /\ sent (calls parseString world cs st1)
            = (sent st1
               ++ map (fun c =>
                         mkRequest POST (endpoint host) (Some (self_auth st1))
                           {[ "file" := body_of c ]}) cs)%list.
Proof.
  rewrite init_run. cbv zeta.
  destruct (world (sent st) (probe_of host)) as [e|probe] eqn:Hw; [discriminate|].
  destruct (headers_getitem (headers probe) "WWW-Authenticate")
    as [e|challenge] eqn:Hh; [discriminate|].
  pose proof (startswith_app "Digest" challenge) as Hpre.
  intros H. exists probe, challenge.
  assert (self_url st1 = endpoint host) as Hurl.
  { destruct (Str.startswith "Digest" challenge); by inversion H. }
  assert (sent st1 = (sent st ++ [probe_of host])%list) as Hsent.
  { destruct (Str.startswith "Digest" challenge); by inversion H. }
  assert (self_auth st1
          = (if Str.startswith "Digest" challenge
             then HTTPDigestAuth (fst credentials) (snd credentials)
             else AuthTuple credentials)) as Hauth.
  { destruct (Str.startswith "Digest" challenge); by inversion H. }
  repeat split; try done.
  - rewrite Hauth. destruct (Str.startswith "Digest" challenge); [|done].
    intros _. by apply Hpre.
  - rewrite Hauth. intros Hrest. apply Hpre in Hrest. by rewrite Hrest.
  - rewrite Hauth. destruct (Str.startswith "Digest" challenge) eqn:Hd; [done|].
    intros _ Hrest. apply Hpre in Hrest. discriminate.
  - rewrite Hauth. destruct (Str.startswith "Digest" challenge) eqn:Hd; [|done].
    intros Hno. exfalso. apply Hno. by apply Hpre.
  - by destruct (calls_frame parseString world cs st1) as (_ & Ha & _).
  - destruct (calls_frame parseString world cs st1) as (_ & _ & Hs).
    rewrite Hs. unfold post_of. by rewrite Hurl.
Qed.

Lemma scheme_resolved_once_by_probe_witness :
  scheme
    (self_auth
       (calls Expat.parseString digest_plug [GetState; SetState (PyStr "ON")]
          (snd (__init__ digest_plug "172.16.100.75" ("admin", "1234") blank))))
  = Digest.
Proof.
  destruct (scheme_resolved_once_by_probe Expat.parseString digest_plug
              "172.16.100.75" ("admin", "1234") blank
              (snd (__init__ digest_plug "172.16.100.75" ("admin", "1234") blank)))
    as (probe & challenge & _ & _ & Hw & Hh & _ & _ & Hauth & Hcalls).
  - vm_compute. reflexivity.
  - destruct (Hcalls [GetState; SetState (PyStr "ON")]) as [-> _].
    rewrite Hauth. injection Hw as <-. injection Hh as <-. reflexivity.
Defined.

(** C8: when the probe is answered but the response has no
    [WWW-Authenticate] header, the lookup raises [KeyError] out of the
    constructor; no client comes to be, with Basic or any other scheme. *)
Theorem init_without_challenge_header_raises world host credentials st probe :
  world (sent st) (probe_of host) = Return probe ->
  headers probe !! "www-authenticate" = None ->
  __init__ world host credentials st
  = (Raise (mkExc KeyError [PyStr "www-authenticate"]),
     mkState (endpoint host) (AuthTuple credentials)
       (sent st ++ [probe_of host])%list (stdout st)).
Proof.
  intros Hw Hh. rewrite init_run, Hw. cbv zeta.
  unfold headers_getitem.
  change (Str.lower "WWW-Authenticate") with "www-authenticate".
  by rewrite Hh.
Qed.

Lemma init_without_challenge_header_raises_witness :
  fst (__init__ (answer 200 (headers_setitem "Content-Type" "text/xml" ∅) EmptyString)
         "172.16.100.75" ("admin", "1234") blank)
  = Raise (mkExc KeyError [PyStr "www-authenticate"]).
Proof.
  rewrite (init_without_challenge_header_raises
             (answer 200 (headers_setitem "Content-Type" "text/xml" ∅) EmptyString)
             "172.16.100.75" ("admin", "1234") blank
             (mkResponse 200 (headers_setitem "Content-Type" "text/xml" ∅) EmptyString)).
  - reflexivity.
  - reflexivity.
  - vm_compute. reflexivity.
Defined.

(** * Further properties of the class *)

(** ** The command builders, for any argument *)

Lemma append_assoc (a b c : string) : (a ++ b) ++ c = a ++ (b ++ c).
Proof. induction a as [|x a IH]; [done|]. rewrite !append_cons. by rewrite IH. Qed.

Lemma append_nil_r (a : string) : a ++ EmptyString = a.
Proof. induction a as [|x a IH]; [done|]. rewrite append_cons. by rewrite IH. Qed.

Lemma replace_absent (old : ascii) (new s : string) :
  forallb (fun c => negb (Ascii.eqb c old)) (list_ascii_of_string s) = true ->
  Str.replace old new s = s.
Proof.
  induction s as [|c s IH]; simpl; [done|].
  intros [Hc Hs]%andb_prop. apply negb_true_iff in Hc. by rewrite Hc, (IH Hs).
Qed.

Lemma forallb_weaken {A} (p q : A -> bool) (l : list A) :
  (forall x, p x = true -> q x = true) -> forallb p l = true -> forallb q l = true.
Proof.
  intros Hpq. induction l as [|x l IH]; simpl; [done|].
  intros [Hx Hl]%andb_prop. by rewrite (Hpq x Hx), (IH Hl).
Qed.

Lemma write_data_markup_free (s : string) :
  markup_free s = true -> _write_data s = s.
Proof.
  unfold markup_free, _write_data. intros H. destruct s as [|c s]; [done|].
  rewrite (replace_absent "&"), (replace_absent "<"),
    (replace_absent (ascii_of_nat 34)), (replace_absent ">"); [done| | | |];
    (eapply forallb_weaken; [|exact H]); unfold unescaped; intros x Hx;
    repeat (apply andb_prop in Hx as [Hx ?]); done.
Qed.

Lemma replace_app (old : ascii) (new a b : string) :
  Str.replace old new (a ++ b) = Str.replace old new a ++ Str.replace old new b.
Proof.
  induction a as [|c a IH]; [done|]. rewrite append_cons. simpl.
  destruct (Ascii.eqb c old); rewrite IH; [by rewrite append_assoc | done].
Qed.

Lemma escape_cons (c : ascii) (s : string) :
  escape (String c s) = escape (String c EmptyString) ++ escape s.
Proof.
  unfold escape. change (String c s) with (String c EmptyString ++ s).
  by rewrite !replace_app.
Qed.

Lemma escape_char_harmless (c : ascii) :
  forallb harmless (list_ascii_of_string (escape (String c EmptyString))) = true.
Proof. destruct c as [[] [] [] [] [] [] [] []]; reflexivity. Qed.

Lemma write_data_harmless (s : string) :
  forallb harmless (list_ascii_of_string (_write_data s)) = true.
Proof.
  assert (forallb harmless (list_ascii_of_string (escape s)) = true) as H.
  { induction s as [|c s IH]; [done|].
    rewrite escape_cons, list_ascii_app, forallb_app, IH, escape_char_harmless.
    done. }
  destruct s; [done | exact H].
Qed.

(** X1: for every pair of arguments the state-command builder returns,
    without raising and without touching the client, the declaration and
    the SMARTPLUG document with both arguments escaped; the escaped
    arguments hold no character that could end the attribute value or the
    element they are written into; and arguments without markup characters
    are written as they are. *)
Theorem xml_cmd_setget_state_escapes (cmdId cmdStr : string) (st : State) :
  _xml_cmd_setget_state cmdId cmdStr st
  = (Return (xml_declaration
             ++ smartplug_cmd (_write_data cmdId) (state_leaf (_write_data cmdStr))),
     st)
  /\ forallb harmless (list_ascii_of_string (_write_data cmdId)) = true
  /\ forallb harmless (list_ascii_of_string (_write_data cmdStr)) = true
  /\ (markup_free cmdId = true -> markup_free cmdStr = true ->
      _xml_cmd_setget_state cmdId cmdStr st
      = (Return (xml_declaration ++ smartplug_cmd cmdId (state_leaf cmdStr)), st)).
Proof.
  assert (_xml_cmd_setget_state cmdId cmdStr st
          = (Return (xml_declaration
                     ++ smartplug_cmd (_write_data cmdId)
                          (state_leaf (_write_data cmdStr))), st)) as Hgen.
  { unfold _xml_cmd_setget_state, in_fresh_store, lift. f_equal.
    cbv -[_write_data String.append].
    rewrite !append_assoc, !append_nil_r. reflexivity. }
  split; [exact Hgen|]. split; [apply write_data_harmless|].
  split; [apply write_data_harmless|].
  intros Hid Hstr. rewrite Hgen.
  by rewrite (write_data_markup_free _ Hid), (write_data_markup_free _ Hstr).
Qed.

Lemma xml_cmd_setget_state_escapes_witness :
  _xml_cmd_setget_state "setup" "TOGGLE" blank
  = (Return (xml_declaration ++ smartplug_cmd "setup" (state_leaf "TOGGLE")), blank).
Proof.
  apply (xml_cmd_setget_state_escapes "setup" "TOGGLE" blank); reflexivity.
Defined.

(** X2: for every attribute the metering-command builder returns, without
    raising and without touching the client, the declaration and the
    SMARTPLUG get document whose leaf element is named
    [Device.System.Power.] followed by the attribute exactly as given (it is
    not escaped), inside a [NOW_POWER] element. *)
Theorem xml_cmd_get_now_power_text (attribute : string) (st : State) :
  _xml_cmd_get_now_power attribute st
  = (Return
       (xml_declaration
        ++ smartplug_cmd "get"
             ("<NOW_POWER><Device.System.Power." ++ attribute
              ++ "></Device.System.Power." ++ attribute ++ "></NOW_POWER>")),
     st).
Proof.
  unfold _xml_cmd_get_now_power, in_fresh_store, lift. f_equal.
  cbv -[_write_data String.append].
  rewrite !append_assoc, !append_nil_r. reflexivity.
Qed.

(** ** Outcomes of the setter and of the meter accessors *)

(** X3: with [parsed] the value that the POST helper extracts from the
    response to the setup command, the setter returns exactly when [parsed]
    is the string [OK]; for every other value, [None] and [FAILED] included,
    it raises the exception of the class. *)
Theorem setter_returns_iff_ok parseString world st st' (value : PyVal)
    (parsed : option string) :
  _post_xml parseString world (setup_xml (token_of value)) st = (Return parsed, st') ->
  (fst (state_setter parseString world value st) = Return tt <-> parsed = Some "OK")
  /\ (parsed = Some "OK" ->
      state_setter parseString world value st = (Return tt, st'))
  /\ (parsed <> Some "OK" ->
      state_setter parseString world value st = (Raise failed, st')).
Proof.
  intros Hpost. rewrite state_setter_run, Hpost.
  assert (ne_str parsed "OK" = false <-> parsed = Some "OK") as Hiff.
  { destruct parsed as [s|]; simpl; [|split; discriminate].
    destruct (String.eqb_spec s "OK") as [->|Hne]; simpl;
      [done | split; [discriminate | congruence]]. }
  destruct (ne_str parsed "OK") eqn:Hne.
  - assert (parsed <> Some "OK") as Hnot.
    { intros H. apply Hiff in H. discriminate. }
    split; [split; [discriminate | done] | split; done].
  - assert (parsed = Some "OK") as Hok by by apply Hiff.
    split; [done | split; done].
Qed.

Lemma setter_returns_iff_ok_witness :
  state_setter Expat.parseString (answer 200 ∅ "<CMD>FAILED</CMD>") (PyStr "ON") blank
  = (Raise failed, after_request blank (post_of blank (setup_xml "ON"))).
Proof.
  apply (setter_returns_iff_ok Expat.parseString (answer 200 ∅ "<CMD>FAILED</CMD>")
           blank (after_request blank (post_of blank (setup_xml "ON")))
           (PyStr "ON") (Some "FAILED")).
  - vm_compute. reflexivity.
  - discriminate.
Defined.

(** X4: with [res] the value that the power helper extracts, [now_power]
    returns exactly when [res] is a string that [float] accepts, and what it
    returns is that string, unchanged; it never returns [None] and never
    puts a default in the place of a missing or malformed value. *)
Theorem now_power_returns_iff_number parseString world st st'
    (res : option string) :
  _post_xml_now_power parseString world (get_power_xml "NowPower") st
  = (Return res, st') ->
  ((exists v, fst (now_power parseString world st) = Return v)
   <-> exists s, res = Some s /\ float_literal s = true)
  /\ (forall v, fst (now_power parseString world st) = Return v ->
      v = res /\ v <> None)
  /\ (forall s, res = Some s -> float_literal s = true ->
      now_power parseString world st = (Return (Some s), st')).
Proof.
  intros H. rewrite (now_power_of_helper _ _ _ _ _ H).
  destruct res as [s|]; [destruct (float_literal s) eqn:Hs|]; simpl.
  - split; [split; [by exists s | by exists (Some s)] |].
    split; [intros v [= <-]; done | by intros ? [= <-] _].
  - split; [split; [intros [v Hv]; discriminate | intros (t & [= <-] & Ht); congruence] |].
    split; [discriminate | intros ? [= <-] Ht; congruence].
  - split; [split; [intros [v Hv]; discriminate | intros (t & Ht & _); discriminate] |].
    split; [discriminate | discriminate].
Qed.

Lemma now_power_returns_iff_number_witness :
  now_power Expat.parseString (answer 200 ∅ (power_response "NowPower" " 7.25e1 ")) blank
  = (Return (Some " 7.25e1 "),
     after_request blank (post_of blank (get_power_xml "NowPower"))).
Proof.
  apply (now_power_returns_iff_number Expat.parseString
           (answer 200 ∅ (power_response "NowPower" " 7.25e1 ")) blank
           (after_request blank (post_of blank (get_power_xml "NowPower")))
           (Some " 7.25e1 ")).
  - vm_compute. reflexivity.
  - reflexivity.
  - reflexivity.
Defined.

(** X5: the same for [now_energy_day]: it returns exactly when the value
    extracted from the daily-energy response is a string that [float]
    accepts, and returns that string unchanged, never [None]. *)
Theorem now_energy_day_returns_iff_number parseString world st st'
    (res : option string) :
  _post_xml_now_power parseString world (get_power_xml "NowEnergy.Day") st
  = (Return res, st') ->
  ((exists v, fst (now_energy_day parseString world st) = Return v)
   <-> exists s, res = Some s /\ float_literal s = true)
  /\ (forall v, fst (now_energy_day parseString world st) = Return v ->
      v = res /\ v <> None)
  /\ (forall s, res = Some s -> float_literal s = false ->
      now_energy_day parseString world st = (Raise failed, st')).
Proof.
  intros H. rewrite (now_energy_day_of_helper _ _ _ _ _ H).
  destruct res as [s|]; [destruct (float_literal s) eqn:Hs|]; simpl.
  - split; [split; [by exists s | by exists (Some s)] |].
    split; [intros v [= <-]; done | intros ? [= <-] Ht; congruence].
  - split; [split; [intros [v Hv]; discriminate | intros (t & [= <-] & Ht); congruence] |].
    split; [discriminate | done].
  - split; [split; [intros [v Hv]; discriminate | intros (t & Ht & _); discriminate] |].
    split; [discriminate | discriminate].
Qed.

Lemma now_energy_day_returns_iff_number_witness :
  now_energy_day Expat.parseString
    (answer 200 ∅ (power_response "NowEnergy.Day" "1,5")) blank
  = (Raise failed, after_request blank (post_of blank (get_power_xml "NowEnergy.Day"))).
Proof.
  refine (proj2 (proj2 (now_energy_day_returns_iff_number Expat.parseString
           (answer 200 ∅ (power_response "NowEnergy.Day" "1,5")) blank
           (after_request blank (post_of blank (get_power_xml "NowEnergy.Day")))
           (Some "1,5") _)) "1,5" _ _).
  - vm_compute. reflexivity.
  - reflexivity.
  - reflexivity.
Defined.

(** ** Failures of the transport and of the parser *)

Section Failures.

Variable parseString : string -> Outcome Document.
Variable world : Transport.

Lemma post_xml_transport_error xml st e :
  world (sent st) (post_of st xml) = Raise e ->
  _post_xml parseString world xml st = (Raise e, after_request st (post_of st xml))
  /\ _post_xml_now_power parseString world xml st
     = (Raise e, after_request st (post_of st xml)).
Proof.
  intros Hw. unfold _post_xml, _post_xml_now_power. unfold_monad.
  fold (post_of st xml). by rewrite Hw.
Qed.

Lemma post_xml_parse_error xml st resp e :
  world (sent st) (post_of st xml) = Return resp ->
  status_code resp = codes_ok ->
  parseString (text resp) = Raise e ->
  _post_xml parseString world xml st = (Raise e, after_request st (post_of st xml))
  /\ _post_xml_now_power parseString world xml st
     = (Raise e, after_request st (post_of st xml)).
Proof.
  intros Hw Hs Hp. unfold _post_xml, _post_xml_now_power. unfold_monad.
  fold (post_of st xml). by rewrite Hw, Hs, Hp.
Qed.

End Failures.

(** X6: an exception of the transport (the device cannot be reached, the
    connection times out) is not handled anywhere: it leaves every accessor
    as it is, after the one request and with nothing printed. *)
Theorem transport_error_leaves_every_accessor parseString world st (e : PyExc) :
  (forall xml, world (sent st) (post_of st xml) = Raise e) ->
  state parseString world st
  = (Raise e, after_request st (post_of st get_state_xml))
  /\ (forall value,
        state_setter parseString world value st
        = (Raise e, after_request st (post_of st (setup_xml (token_of value)))))
  /\ now_power parseString world st
     = (Raise e, after_request st (post_of st (get_power_xml "NowPower")))
  /\ now_energy_day parseString world st
     = (Raise e, after_request st (post_of st (get_power_xml "NowEnergy.Day"))).
Proof.
  intros Hw. repeat split.
  - rewrite state_run.
    by rewrite (proj1 (post_xml_transport_error parseString world _ st e (Hw _))).
  - intros value. rewrite state_setter_run.
    by rewrite (proj1 (post_xml_transport_error parseString world _ st e (Hw _))).
  - rewrite now_power_run.
    by rewrite (proj2 (post_xml_transport_error parseString world _ st e (Hw _))).
  - rewrite now_energy_day_run.
    by rewrite (proj2 (post_xml_transport_error parseString world _ st e (Hw _))).
Qed.

Lemma transport_error_leaves_every_accessor_witness :
  state Expat.parseString unreachable blank
  = (Raise (mkExc ConnectionError []),
     after_request blank (post_of blank get_state_xml)).
Proof.
  refine (proj1 (transport_error_leaves_every_accessor Expat.parseString unreachable
                   blank (mkExc ConnectionError []) _)).
  intros xml. reflexivity.
Defined.

(** X7: a response with status 200 whose text the parser rejects makes
    every accessor raise the exception of the parser: [parseString] is
    called outside the [try] statement of the helpers, so this exception is
    neither printed nor turned into [None] or into the exception of the
    class. *)
Theorem parse_error_leaves_every_accessor parseString world st resp (e : PyExc) :
  (forall xml, world (sent st) (post_of st xml) = Return resp) ->
  status_code resp = 200%Z ->
  parseString (text resp) = Raise e ->
  state parseString world st
  = (Raise e, after_request st (post_of st get_state_xml))
  /\ (forall value,
        state_setter parseString world value st
        = (Raise e, after_request st (post_of st (setup_xml (token_of value)))))
  /\ now_power parseString world st
     = (Raise e, after_request st (post_of st (get_power_xml "NowPower")))
  /\ now_energy_day parseString world st
     = (Raise e, after_request st (post_of st (get_power_xml "NowEnergy.Day"))).
Proof.
  intros Hw Hs Hp. repeat split.
  - rewrite state_run.
    by rewrite (proj1 (post_xml_parse_error parseString world _ st resp e (Hw _) Hs Hp)).
  - intros value. rewrite state_setter_run.
    by rewrite (proj1 (post_xml_parse_error parseString world _ st resp e (Hw _) Hs Hp)).
  - rewrite now_power_run.
    by rewrite (proj2 (post_xml_parse_error parseString world _ st resp e (Hw _) Hs Hp)).
  - rewrite now_energy_day_run.
    by rewrite (proj2 (post_xml_parse_error parseString world _ st resp e (Hw _) Hs Hp)).
Qed.

Lemma parse_error_leaves_every_accessor_witness :
  state Expat.parseString (answer 200 ∅ "<CMD>ON") blank
  = (Raise (mkExc ExpatError []), after_request blank (post_of blank get_state_xml)).
Proof.
  refine (proj1 (parse_error_leaves_every_accessor Expat.parseString
                   (answer 200 ∅ "<CMD>ON") blank (mkResponse 200 ∅ "<CMD>ON")
                   (mkExc ExpatError []) _ _ _)).
  - intros xml. reflexivity.
  - reflexivity.
  - vm_compute. reflexivity.
Defined.

(** ** What the helpers swallow *)





(** ** Where the [CMD] element is looked for *)




(** ** Repeating a call *)

Section Repeat.

Variable parseString : string -> Outcome Document.
Variable world : Transport.

(** What a helper returns or raises depends on the state only through the
    address, the credentials and the answer of the transport. *)
Lemma post_xml_outcome_ext xml st st' :
  self_url st = self_url st' -> self_auth st = self_auth st' ->
  world (sent st) (post_of st xml) = world (sent st') (post_of st' xml) ->
  fst (_post_xml parseString world xml st) = fst (_post_xml parseString world xml st')
  /\ fst (_post_xml_now_power parseString world xml st)
     = fst (_post_xml_now_power parseString world xml st').
Proof.
  intros Hu Ha Hw. unfold _post_xml, _post_xml_now_power. unfold_monad.
  fold (post_of st xml). fold (post_of st' xml). rewrite Hw.
  destruct (world (sent st') (post_of st' xml)) as [e|resp]; [done|].
  destruct (status_code resp =? codes_ok)%Z; [|done].
  destruct (parseString (text resp)) as [e|doc]; [done|].
  destruct (doc_getElementsByTagName doc "CMD") as [|cmd rest]; [done|].
  destruct (firstChild cmd) as [first|]; [|done].
  destruct (nodeValue first); [done|].
  split.
  - destruct (getElementsByTagName cmd "Device.System.Power.State") as [|leaf others];
      [done|].
    by destruct (firstChild leaf).
  - destruct (getElementsByTagName cmd "NOW_POWER") as [|np others]; [done|].
    destruct (firstChild np) as [inner|]; [|done].
    by destruct (firstChild inner).
Qed.

End Repeat.

Section Outcomes.

Variable parseString : string -> Outcome Document.
Variable world : Transport.

Lemma state_outcome st :
  fst (state parseString world st)
  = match fst (_post_xml parseString world get_state_xml st) with
    | Raise e => Raise e
    | Return res =>
        if ne_str res "ON" && ne_str res "OFF" then Raise failed else Return res
    end.
Proof.
  rewrite state_run.
  destruct (_post_xml parseString world get_state_xml st) as [[e|res] st1]; [done|].
  simpl. by destruct (ne_str res "ON" && ne_str res "OFF").
Qed.

Lemma state_setter_outcome value st :
  fst (state_setter parseString world value st)
  = match fst (_post_xml parseString world (setup_xml (token_of value)) st) with
    | Raise e => Raise e
    | Return res => if ne_str res "OK" then Raise failed else Return tt
    end.
Proof.
  rewrite state_setter_run.
  destruct (_post_xml parseString world (setup_xml (token_of value)) st)
    as [[e|res] st1]; [done|].
  simpl. by destruct (ne_str res "OK").
Qed.

Lemma now_power_outcome st :
  fst (now_power parseString world st)
  = match fst (_post_xml_now_power parseString world (get_power_xml "NowPower") st) with
    | Raise e => Raise e
    | Return res => checked res
    end.
Proof.
  rewrite now_power_run.
  destruct (_post_xml_now_power parseString world (get_power_xml "NowPower") st)
    as [[e|res] st1]; [done|].
  simpl. unfold checked, check_float, raise, ret.
  destruct (float_raises res) as [e|]; [|done].
  by destruct (ExcClass_eqb (exc_class e) ValueError).
Qed.

Lemma now_energy_day_outcome st :
  fst (now_energy_day parseString world st)
  = match fst (_post_xml_now_power parseString world (get_power_xml "NowEnergy.Day") st) with
    | Raise e => Raise e
    | Return res => checked res
    end.
Proof.
  rewrite now_energy_day_run.
  destruct (_post_xml_now_power parseString world (get_power_xml "NowEnergy.Day") st)
    as [[e|res] st1]; [done|].
  simpl. unfold checked, check_float, raise, ret.
  destruct (float_raises res) as [e|]; [|done].
  by destruct (ExcClass_eqb (exc_class e) ValueError).
Qed.

End Outcomes.

(** X11: against a device that answers a request the same way whatever
    came before, calling an accessor a second time gives the outcome of the
    first call (the same value or the same exception), for each of the four
    accessors. *)
Theorem repeated_call_same_outcome parseString world st :
  stateless world ->
  fst (state parseString world (snd (state parseString world st)))
  = fst (state parseString world st)
  /\ (forall value,
        fst (state_setter parseString world value
               (snd (state_setter parseString world value st)))
        = fst (state_setter parseString world value st))
  /\ fst (now_power parseString world (snd (now_power parseString world st)))
     = fst (now_power parseString world st)
  /\ fst (now_energy_day parseString world (snd (now_energy_day parseString world st)))
     = fst (now_energy_day parseString world st).
Proof.
  intros Hstateless.
  assert (forall (c : Call) xml,
            fst (_post_xml parseString world xml (call parseString world c st))
            = fst (_post_xml parseString world xml st)
            /\ fst (_post_xml_now_power parseString world xml
                      (call parseString world c st))
               = fst (_post_xml_now_power parseString world xml st)) as Hext.
  { intros c xml. destruct (call_frame parseString world c st) as (Hu & Ha & _).
    apply post_xml_outcome_ext; [done | done |].
    unfold post_of. rewrite Hu, Ha. apply Hstateless. }
  split; [|split; [|split]].
  - rewrite !state_outcome.
    change (snd (state parseString world st)) with (call parseString world GetState st).
    by rewrite (proj1 (Hext GetState get_state_xml)).
  - intros value. rewrite !state_setter_outcome.
    change (snd (state_setter parseString world value st))
      with (call parseString world (SetState value) st).
    by rewrite (proj1 (Hext (SetState value) (setup_xml (token_of value)))).
  - rewrite !now_power_outcome.
    change (snd (now_power parseString world st))
      with (call parseString world GetNowPower st).
    by rewrite (proj2 (Hext GetNowPower (get_power_xml "NowPower"))).
  - rewrite !now_energy_day_outcome.
    change (snd (now_energy_day parseString world st))
      with (call parseString world GetNowEnergyDay st).
    by rewrite (proj2 (Hext GetNowEnergyDay (get_power_xml "NowEnergy.Day"))).
Qed.

Lemma repeated_call_same_outcome_witness :
  fst (state Expat.parseString plug_on (snd (state Expat.parseString plug_on blank)))
  = fst (state Expat.parseString plug_on blank).
Proof.
  refine (proj1 (repeated_call_same_outcome Expat.parseString plug_on blank _)).
  intros log log' r. reflexivity.
Defined.

(** ** The constructor, whatever the probe brings *)

(** X12: whatever becomes of the probe, the constructor has set the
    address to [http://<host>:10000/smartplug.cgi], has issued the probe
    and nothing else, and has printed nothing; an exception of the probe
    (the host cannot be reached) leaves the constructor as it is; and
    whenever the constructor raises, the credentials it leaves behind are
    the tuple it was given. *)
Theorem init_frame world host credentials st :
  let out := __init__ world host credentials st in
  self_url (snd out) = "http://" ++ host ++ ":10000/smartplug.cgi"
  /\ sent (snd out) = (sent st ++ [mkRequest HEAD (self_url (snd out)) None ∅])%list
  /\ stdout (snd out) = stdout st
  /\ (forall e, world (sent st) (probe_of host) = Raise e -> fst out = Raise e)
  /\ (forall e, fst out = Raise e -> self_auth (snd out) = AuthTuple credentials).
Proof.
  cbv zeta. rewrite init_run. cbv zeta.
  destruct (world (sent st) (probe_of host)) as [e|res].
  - repeat split; try done. by intros ? [= ->].
  - destruct (headers_getitem (headers res) "WWW-Authenticate") as [e|challenge].
    + repeat split; done.
    + destruct (Str.startswith "Digest" challenge); repeat split; done.
Qed.

(** X13: the constructor looks at the headers of the probe response only:
    two probe responses with the same headers, whatever their status codes
    and bodies, give the same outcome and the same client. *)
Theorem init_reads_headers_only world world' host credentials st resp resp' :
  world (sent st) (probe_of host) = Return resp ->
  world' (sent st) (probe_of host) = Return resp' ->
  headers resp = headers resp' ->
  __init__ world host credentials st = __init__ world' host credentials st.
Proof.
  intros Hw Hw' Hh. by rewrite !init_run, Hw, Hw', Hh.
Qed.

Lemma init_reads_headers_only_witness :
  __init__ (answer 401 (headers_setitem "WWW-Authenticate" "Digest realm=x" ∅) "denied")
    "plug" ("admin", "1234") blank
  = __init__ (answer 200 (headers_setitem "WWW-Authenticate" "Digest realm=x" ∅) EmptyString)
      "plug" ("admin", "1234") blank.
Proof.
  apply (init_reads_headers_only
           (answer 401 (headers_setitem "WWW-Authenticate" "Digest realm=x" ∅) "denied")
           (answer 200 (headers_setitem "WWW-Authenticate" "Digest realm=x" ∅) EmptyString)
           "plug" ("admin", "1234") blank
           (mkResponse 401 (headers_setitem "WWW-Authenticate" "Digest realm=x" ∅) "denied")
           (mkResponse 200 (headers_setitem "WWW-Authenticate" "Digest realm=x" ∅)
              EmptyString));
    reflexivity.
Defined.

(** ** One request for one call *)

(** X14: every accessor call, whether it returns or raises, issues exactly
    one request: a POST to the stored address under the stored credentials
    whose form has the single field [file], holding the command document;
    and it assigns to no attribute of the client. *)
Theorem accessor_issues_one_post parseString world (c : Call) st :
  exists r,
    sent (call parseString world c st) = (sent st ++ [r])%list
    /\ method r = POST
    /\ url r = self_url st
    /\ auth r = Some (self_auth st)
    /\ dom (files r) = {[ "file" ]}
    /\ files r !! "file" = Some (body_of c)
    /\ self_url (call parseString world c st) = self_url st
    /\ self_auth (call parseString world c st) = self_auth st.
Proof.
  destruct (call_frame parseString world c st) as (Hu & Ha & Hs).
  exists (post_of st (body_of c)). unfold post_of at 2 3 4 5 6. simpl.
  split; [done|]. split; [done|]. split; [done|]. split; [done|].
  split; [apply dom_singleton_L|]. split; [apply lookup_singleton_eq|]. done.
Qed.

(** ** Metering responses, for any value *)

Section MeterExtraction.

Variable parseString : string -> Outcome Document.
Variable world : Transport.


End MeterExtraction.








(** ** From the text of the response to the outcome of the call *)


